(** * FileCachingServer: the persistent cache subsystem

    A shallow embedding of [src/services/hasher.js] (URL hashing) and of
    [src/services/cache.js] (index, entry files, get / set / list), with the
    properties the specification states about them.

    Conventions of the embedding:
    - a JavaScript string or Buffer is a [string] (a sequence of bytes);
    - the file system is a finite map from paths to file contents, with
      per-path injected I/O faults;
    - an [async] function is a program over primitive effects ([prog]); the
      interpreter [run] gives its outcome, [events] the effects it performs
      in order, [snapshots] every world an observer (or a crash) can see
      while it runs. *)

From Stdlib Require Import ZArith List Ascii Lia DecimalString.
From Stdlib Require String.
From stdpp Require Import base option list gmap strings.

Set Default Proof Using "Type".

(* ===================================================================== *)
(** * SHA-256 (what [crypto.createHash('sha256')] computes, FIPS 180-4)  *)
(* ===================================================================== *)

Module SHA256.
Local Open Scope Z_scope.

Definition wrap (x : Z) : Z := x mod 2 ^ 32.

Definition add32 (x y : Z) : Z := wrap (x + y).

Definition shr (n x : Z) : Z := Z.shiftr x n.

Definition rotr (n x : Z) : Z :=
  Z.lor (Z.shiftr x n) (wrap (Z.shiftl x (32 - n))).

Definition not32 (x : Z) : Z := Z.lxor x 0xffffffff.

Definition Ch (x y z : Z) : Z := Z.lxor (Z.land x y) (Z.land (not32 x) z).

Definition Maj (x y z : Z) : Z :=
  Z.lxor (Z.lxor (Z.land x y) (Z.land x z)) (Z.land y z).

Definition Sigma0 (x : Z) : Z := Z.lxor (Z.lxor (rotr 2 x) (rotr 13 x)) (rotr 22 x).
Definition Sigma1 (x : Z) : Z := Z.lxor (Z.lxor (rotr 6 x) (rotr 11 x)) (rotr 25 x).
Definition sigma0 (x : Z) : Z := Z.lxor (Z.lxor (rotr 7 x) (rotr 18 x)) (shr 3 x).
Definition sigma1 (x : Z) : Z := Z.lxor (Z.lxor (rotr 17 x) (rotr 19 x)) (shr 10 x).

(** A table of 32-bit words, written as hexadecimal digits, eight per word. *)
Definition hex_value (c : ascii) : Z :=
  let n := Z.of_N (N_of_ascii c) in if n <? 58 then n - 48 else n - 87.

Fixpoint words_of_hex (s : string) : list Z :=
  match s with
  | String c0 (String c1 (String c2 (String c3
      (String c4 (String c5 (String c6 (String c7 rest))))))) =>
      fold_left (fun acc c => 16 * acc + hex_value c) [c0; c1; c2; c3; c4; c5; c6; c7] 0
      :: words_of_hex rest
  | _ => []
  end.

(** The round constants: the fractional parts of the cube roots of the
    first sixty-four primes. *)
Definition K : list Z :=
  words_of_hex
    ("428a2f9871374491b5c0fbcfe9b5dba53956c25b59f111f1923f82a4ab1c5ed5"
     +:+ "d807aa9812835b01243185be550c7dc372be5d7480deb1fe9bdc06a7c19bf174"
     +:+ "e49b69c1efbe47860fc19dc6240ca1cc2de92c6f4a7484aa5cb0a9dc76f988da"
     +:+ "983e5152a831c66db00327c8bf597fc7c6e00bf3d5a7914706ca635114292967"
     +:+ "27b70a852e1b21384d2c6dfc53380d13650a7354766a0abb81c2c92e92722c85"
     +:+ "a2bfe8a1a81a664bc24b8b70c76c51a3d192e819d6990624f40e3585106aa070"
     +:+ "19a4c1161e376c082748774c34b0bcb5391c0cb34ed8aa4a5b9cca4f682e6ff3"
     +:+ "748f82ee78a5636f84c878148cc7020890befffaa4506cebbef9a3f7c67178f2").

(** The eight working registers / the intermediate hash value. *)
Record regs : Type := Regs
  { ra : Z; rb : Z; rc : Z; rd : Z; re : Z; rf : Z; rg : Z; rh : Z }.

(** The initial hash value: the fractional parts of the square roots of the
    first eight primes. *)
Definition H0 : regs :=
  match words_of_hex "6a09e667bb67ae853c6ef372a54ff53a510e527f9b05688c1f83d9ab5be0cd19" with
  | [a; b; c; d; e; f; g; h] => Regs a b c d e f g h
  | _ => Regs 0 0 0 0 0 0 0 0
  end.

(** One round: [k] the round constant, [w] the schedule word. *)
Definition round (k w : Z) (s : regs) : regs :=
  let t1 := add32 (add32 (add32 (add32 (rh s) (Sigma1 (re s)))
                                (Ch (re s) (rf s) (rg s))) k) w in
  let t2 := add32 (Sigma0 (ra s)) (Maj (ra s) (rb s) (rc s)) in
  Regs (add32 t1 t2) (ra s) (rb s) (rc s) (add32 (rd s) t1) (re s) (rf s) (rg s).

(** The message schedule as a sliding window of sixteen words: at round
    [t] the window holds W[t] .. W[t+15]. *)
Definition next_word (win : list Z) : Z :=
  add32 (add32 (add32 (sigma1 (nth 14 win 0)) (nth 9 win 0))
               (sigma0 (nth 1 win 0))) (nth 0 win 0).

Fixpoint rounds (ks : list Z) (win : list Z) (s : regs) : regs :=
  match ks with
  | [] => s
  | k :: ks' =>
      rounds ks' (tl win ++ [next_word win]) (round k (nth 0 win 0) s)
  end.

Fixpoint be_words (bs : list Z) : list Z :=
  match bs with
  | b0 :: b1 :: b2 :: b3 :: rest =>
      Z.lor (Z.lor (Z.lor (Z.shiftl b0 24) (Z.shiftl b1 16)) (Z.shiftl b2 8)) b3
      :: be_words rest
  | _ => []
  end.

Definition compress (h : regs) (block : list Z) : regs :=
  let s := rounds K (be_words block) h in
  Regs (add32 (ra h) (ra s)) (add32 (rb h) (rb s))
       (add32 (rc h) (rc s)) (add32 (rd h) (rd s))
       (add32 (re h) (re s)) (add32 (rf h) (rf s))
       (add32 (rg h) (rg s)) (add32 (rh h) (rh s)).

Fixpoint blocks (fuel : nat) (bs : list Z) (h : regs) : regs :=
  match fuel with
  | O => h
  | S fuel' =>
      match bs with
      | [] => h
      | _ => blocks fuel' (skipn 64 bs) (compress h (firstn 64 bs))
      end
  end.

Definition be64 (n : Z) : list Z :=
  map (fun i => Z.land (Z.shiftr n (8 * i)) 0xff) [7; 6; 5; 4; 3; 2; 1; 0].

Definition pad (msg : list Z) : list Z :=
  let len := Z.of_nat (length msg) in
  msg ++ [0x80] ++ repeat 0 (Z.to_nat ((55 - len) mod 64)) ++ be64 (8 * len).

Definition sha256 (msg : list Z) : regs :=
  let bs := pad msg in blocks (length bs) bs H0.

(** Lower-case hexadecimal, as [digest('hex')] prints it. *)
Definition hexdigit (n : Z) : ascii :=
  nth (Z.to_nat n)
      ["0"; "1"; "2"; "3"; "4"; "5"; "6"; "7";
       "8"; "9"; "a"; "b"; "c"; "d"; "e"; "f"]%char "0"%char.

Definition nibble (w i : Z) : ascii := hexdigit (Z.land (Z.shiftr w (4 * i)) 15).

Definition hex_word (w : Z) (rest : string) : string :=
  String (nibble w 7) (String (nibble w 6) (String (nibble w 5)
 (String (nibble w 4) (String (nibble w 3) (String (nibble w 2)
 (String (nibble w 1) (String (nibble w 0) rest))))))).

Definition hex_digest (h : regs) : string :=
  hex_word (ra h) (hex_word (rb h) (hex_word (rc h) (hex_word (rd h)
 (hex_word (re h) (hex_word (rf h) (hex_word (rg h) (hex_word (rh h) ""))))))).

Definition bytes_of_string (s : string) : list Z :=
  map (fun c => Z.of_N (N_of_ascii c)) (String.list_ascii_of_string s).

End SHA256.

(** [hashURL(url)]: the SHA-256 of the URL, in hexadecimal.  The URL is
    given by its bytes (its UTF-8 encoding), which is what [update(url)]
    feeds to the digest. *)
Definition hashURL (url : string) : string :=
  SHA256.hex_digest (SHA256.sha256 (SHA256.bytes_of_string url)).


(* ===================================================================== *)
(** * Data model                                                          *)
(* ===================================================================== *)

(** A plain JavaScript object used as a map with string keys: an
    association list in property (insertion) order.  [Object.values] sees
    that order; a key occurs at most once ([wf_object]). *)
Definition jsobject (V : Type) : Type := list (string * V).

Section jsobject.
Context {V : Type}.

(** [o[k]], [None] being [undefined]. *)
Fixpoint obj_get (k : string) (o : jsobject V) : option V :=
  match o with
  | [] => None
  | (k', v) :: o' => if decide (k' = k) then Some v else obj_get k o'
  end.

(** [o[k] = v]: an existing property keeps its place, a new one goes last. *)
Fixpoint obj_set (k : string) (v : V) (o : jsobject V) : jsobject V :=
  match o with
  | [] => [(k, v)]
  | (k', v') :: o' =>
      if decide (k' = k) then (k, v) :: o' else (k', v') :: obj_set k v o'
  end.

(** [delete o[k]]. *)
Fixpoint obj_delete (k : string) (o : jsobject V) : jsobject V :=
  match o with
  | [] => []
  | (k', v') :: o' =>
      if decide (k' = k) then obj_delete k o' else (k', v') :: obj_delete k o'
  end.

Definition obj_keys (o : jsobject V) : list string := map fst o.
Definition obj_values (o : jsobject V) : list V := map snd o.

Definition wf_object (o : jsobject V) : Prop := NoDup (obj_keys o).
End jsobject.

(** The index's summary record [{url, byteSize, cachedAt}]. *)
Record summary : Type := Summary
  { s_url : string; s_byteSize : nat; s_cachedAt : string }.

(** The response descriptor [set] receives: it reads [contentType],
    [statusCode] and [headers]. *)
Record response : Type := Response
  { r_statusCode : Z; r_headers : jsobject string; r_contentType : string }.

(** The metadata document of an entry. *)
Record metadata : Type := Metadata
  { m_url : string; m_hash : string; m_contentType : string;
    m_statusCode : Z; m_byteSize : nat; m_cachedAt : string;
    m_headers : jsobject string }.

(** What [list] yields per entry. *)
Record listing : Type := Listing { l_url : string; l_byteSize : nat }.

Abbreviation index_t := (jsobject summary).

(** [JSON.stringify(v, null, 2)] and [JSON.parse] at a document type: a
    printer and a partial parser ([None]: [JSON.parse] throws a
    [SyntaxError]).  The runtime's JSON is not part of the repository; the
    development is parametric in it, and the theorems name the one law they
    need where they need it. *)
Class JSON (A : Type) : Type :=
  { JSON_stringify : A -> string; JSON_parse : string -> option A }.

(* ===================================================================== *)
(** * Errors                                                              *)
(* ===================================================================== *)

(** The ways a file operation on an existing, well-placed path can fail. *)
Inductive fault : Type := EACCES | EISDIR | EIO | ENOSPC | EMFILE | EROFS.

(** [error.code] of a system error. *)
Inductive errno : Type := ENOENT | Efault (f : fault).

(** What the code can throw: a system error of [fs], or the [SyntaxError]
    of [JSON.parse], which has no [code]. *)
Inductive error : Type := SystemError (c : errno) | SyntaxError.

Definition code (e : error) : option errno :=
  match e with SystemError c => Some c | SyntaxError => None end.

(** [error.code === 'ENOENT'] *)
Definition is_ENOENT (e : error) : bool :=
  match code e with Some ENOENT => true | _ => false end.

#[global] Instance fault_eq_dec : EqDecision fault.
Proof. solve_decision. Defined.
#[global] Instance errno_eq_dec : EqDecision errno.
Proof. solve_decision. Defined.
#[global] Instance error_eq_dec : EqDecision error.
Proof. solve_decision. Defined.

Inductive result (A : Type) : Type := Ok (a : A) | Err (e : error).
Arguments Ok {A} a.
Arguments Err {A} e.

(* ===================================================================== *)
(** * The file system                                                     *)
(* ===================================================================== *)

(** Files by path, the directories created so far, and the faults the
    environment injects: a read of [p] fails when [read_fault !! p] is set,
    a write to [p] fails when [write_fault !! p] is set ([None]: at open,
    the file is untouched; [Some n]: after [n] bytes reached the file), a
    rename onto [p] fails when [rename_fault !! p] is set. *)
Record fsys : Type := Fsys
  { files : gmap string string;
    dirs : gset string;
    read_fault : gmap string fault;
    write_fault : gmap string (fault * option nat);
    rename_fault : gmap string fault;
    mkdir_fault : gmap string fault }.

Definition with_files (f : gmap string string) (fs : fsys) : fsys :=
  Fsys f (dirs fs) (read_fault fs) (write_fault fs) (rename_fault fs) (mkdir_fault fs).

Definition with_dirs (d : gset string) (fs : fsys) : fsys :=
  Fsys (files fs) d (read_fault fs) (write_fault fs) (rename_fault fs) (mkdir_fault fs).

(** The first [n] bytes of [d] (all of it when [d] is shorter). *)
Definition first_bytes (n : nat) (d : string) : string := String.substring 0 n d.

(** [fs.readFile(p)] *)
Definition read_file (p : string) (fs : fsys) : result string :=
  match read_fault fs !! p with
  | Some f => Err (SystemError (Efault f))
  | None =>
      match files fs !! p with
      | Some d => Ok d
      | None => Err (SystemError ENOENT)
      end
  end.

(** [fs.writeFile(p, d)]: opens with truncation, then writes. *)
Definition write_file (p d : string) (fs : fsys) : result unit * fsys :=
  match write_fault fs !! p with
  | None => (Ok tt, with_files (<[p := d]> (files fs)) fs)
  | Some (f, None) => (Err (SystemError (Efault f)), fs)
  | Some (f, Some n) =>
      (Err (SystemError (Efault f)), with_files (<[p := first_bytes n d]> (files fs)) fs)
  end.

(** The contents an observer can find at [p] while [fs.writeFile(p, d)] is
    under way: each proper prefix of what will have been written. *)
Definition write_file_partial (p d : string) (fs : fsys) : list fsys :=
  let upto :=
    match write_fault fs !! p with
    | None => String.length d
    | Some (_, None) => O
    | Some (_, Some n) => Nat.min n (String.length d)
    end in
  map (fun n => with_files (<[p := first_bytes n d]> (files fs)) fs) (seq 0 upto).

(** [fs.rename(src, dst)]: atomic. *)
Definition rename_file (src dst : string) (fs : fsys) : result unit * fsys :=
  match rename_fault fs !! dst with
  | Some f => (Err (SystemError (Efault f)), fs)
  | None =>
      match files fs !! src with
      | None => (Err (SystemError ENOENT), fs)
      | Some d => (Ok tt, with_files (<[dst := d]> (delete src (files fs))) fs)
      end
  end.

(** [fs.mkdir(p, { recursive: true })]: no error when [p] exists. *)
Definition mkdir (p : string) (fs : fsys) : result unit * fsys :=
  match mkdir_fault fs !! p with
  | Some f => (Err (SystemError (Efault f)), fs)
  | None => (Ok tt, with_dirs ({[p]} ∪ dirs fs) fs)
  end.

(** A file system on which no operation fails for an injected reason. *)
Definition healthy (fs : fsys) : Prop :=
  read_fault fs = ∅ /\ write_fault fs = ∅ /\ rename_fault fs = ∅ /\ mkdir_fault fs = ∅.

(* ===================================================================== *)
(** * Module state and programs                                           *)
(* ===================================================================== *)

(** The module-level variables of [cache.js]. *)
Record memory : Type := Memory
  { cacheDir : string; indexPath : string; entriesDir : string; index : index_t }.

Definition with_index (i : index_t) (m : memory) : memory :=
  Memory (cacheDir m) (indexPath m) (entriesDir m) i.

Record world : Type := World { mem : memory; disk : fsys }.

Definition with_mem (m : memory) (w : world) : world := World m (disk w).
Definition with_disk (fs : fsys) (w : world) : world := World (mem w) fs.

(** Primitive effects, indexed by what they return. *)
Inductive op : Type -> Type :=
| ReadFile (p : string) : op string
| WriteFile (p d : string) : op unit
| Rename (src dst : string) : op unit
| Mkdir (p : string) : op unit
| GetMem : op memory
| PutMem (m : memory) : op unit.

(** A program: returns, throws, or performs an effect and goes on with its
    outcome. *)
Inductive prog (A : Type) : Type :=
| Ret (a : A)
| Throw (e : error)
| Do {X : Type} (o : op X) (k : result X -> prog A).
Arguments Ret {A} a.
Arguments Throw {A} e.
Arguments Do {A X} o k.

Fixpoint bind {A B : Type} (m : prog A) (f : A -> prog B) : prog B :=
  match m with
  | Ret a => f a
  | Throw e => Throw e
  | Do o k => Do o (fun r => bind (k r) f)
  end.

(** [try { m } catch (error) { h error }] *)
Fixpoint try_catch {A : Type} (m : prog A) (h : error -> prog A) : prog A :=
  match m with
  | Ret a => Ret a
  | Throw e => h e
  | Do o k => Do o (fun r => try_catch (k r) h)
  end.

(** [await o]: the effect's value, or its error thrown. *)
Definition call {X : Type} (o : op X) : prog X :=
  Do o (fun r => match r with Ok x => Ret x | Err e => Throw e end).

#[global] Instance prog_ret : MRet prog := @Ret.
#[global] Instance prog_bind : MBind prog := fun A B f m => bind m f.

(** [await Promise.all([fs.readFile(p1, ..), fs.readFile(p2)])]: both reads
    are issued; the result rejects with the rejection that settles first.
    When both reads fail, [race] tells whether the first one's rejection is
    the one seen. *)
Definition Promise_all (race : bool) (p1 p2 : string) : prog (string * string) :=
  Do (ReadFile p1) (fun r1 =>
  Do (ReadFile p2) (fun r2 =>
    match r1, r2 with
    | Ok a, Ok b => Ret (a, b)
    | Err e, Ok _ => Throw e
    | Ok _, Err e => Throw e
    | Err e1, Err e2 => Throw (if race then e1 else e2)
    end)).

(** [path.join(a, b)] on a normalized directory [a] and a plain name [b]. *)
Definition path_join (a b : string) : string := a +:+ "/" +:+ b.

Module cache.
Section programs.
Context `{JSON index_t, JSON metadata}.

(** [saveIndex()] *)
Definition saveIndex : prog unit :=
  m ← call GetMem;
  let tempPath := indexPath m +:+ ".tmp" in
  call (WriteFile tempPath (JSON_stringify (index m)));;
  call (Rename tempPath (indexPath m)).

(** [initializeCache(dir)] *)
Definition initializeCache (dir : string) : prog unit :=
  m ← call GetMem;
  let entries := path_join dir "entries" in
  let indexFile := path_join dir "index.json" in
  call (PutMem (Memory dir indexFile entries (index m)));;
  call (Mkdir entries);;
  try_catch
    (data ← call (ReadFile indexFile);
     match JSON_parse data with
     | Some i => m ← call GetMem; call (PutMem (with_index i m))
     | None => Throw SyntaxError
     end)
    (fun error =>
       if is_ENOENT error then
         m ← call GetMem;
         call (PutMem (with_index [] m));;
         saveIndex
       else Throw error).

(** [get(url)]; [None] is [null].  The key is sixty-four hexadecimal
    characters, never the name of a property inherited from
    [Object.prototype]: [index[hash]] is a lookup among the records. *)
Definition get (race : bool) (url : string) : prog (option (metadata * string)) :=
  let hash := hashURL url in
  m ← call GetMem;
  match obj_get hash (index m) with
  | None => Ret None
  | Some _ =>
      let metaPath := path_join (entriesDir m) (hash +:+ ".meta.json") in
      let contentPath := path_join (entriesDir m) (hash +:+ ".content") in
      try_catch
        ('(metaData, content) ← Promise_all race metaPath contentPath;
         match JSON_parse metaData with
         | Some metadata => Ret (Some (metadata, content))
         | None => Throw SyntaxError
         end)
        (fun error =>
           if is_ENOENT error then
             m ← call GetMem;
             call (PutMem (with_index (obj_delete hash (index m)) m));;
             saveIndex;;
             Ret None
           else Throw error)
  end.

(** [set(url, response, content)]; [now] is [new Date().toISOString()]. *)
Definition set (now : string) (url : string) (response : response)
    (content : string) : prog unit :=
  let hash := hashURL url in
  m ← call GetMem;
  let metaPath := path_join (entriesDir m) (hash +:+ ".meta.json") in
  let contentPath := path_join (entriesDir m) (hash +:+ ".content") in
  let metadata :=
    Metadata url hash (r_contentType response) (r_statusCode response)
             (String.length content) now (r_headers response) in
  let contentTempPath := contentPath +:+ ".tmp" in
  call (WriteFile contentTempPath content);;
  call (Rename contentTempPath contentPath);;
  let metaTempPath := metaPath +:+ ".tmp" in
  call (WriteFile metaTempPath (JSON_stringify metadata));;
  call (Rename metaTempPath metaPath);;
  m ← call GetMem;
  call (PutMem (with_index
    (obj_set hash (Summary url (String.length content) (m_cachedAt metadata)) (index m)) m));;
  saveIndex.

(** [list()] *)
Definition list : prog (Datatypes.list listing) :=
  m ← call GetMem;
  Ret (map (fun s => Listing (s_url s) (s_byteSize s)) (obj_values (index m))).

End programs.
End cache.

(* ===================================================================== *)
(** * Semantics of programs                                               *)
(* ===================================================================== *)

(** One primitive effect, taken atomically. *)
Definition step {X : Type} (o : op X) (w : world) : result X * world :=
  match o in op X return result X * world with
  | ReadFile p => (read_file p (disk w), w)
  | WriteFile p d => let (r, fs) := write_file p d (disk w) in (r, with_disk fs w)
  | Rename src dst => let (r, fs) := rename_file src dst (disk w) in (r, with_disk fs w)
  | Mkdir p => let (r, fs) := mkdir p (disk w) in (r, with_disk fs w)
  | GetMem => (Ok (mem w), w)
  | PutMem m => (Ok tt, with_mem m w)
  end.

(** The worlds visible strictly inside an effect: only [fs.writeFile] is
    not atomic. *)
Definition during {X : Type} (o : op X) (w : world) : list world :=
  match o with
  | WriteFile p d => map (fun fs => with_disk fs w) (write_file_partial p d (disk w))
  | _ => []
  end.

(** The effect as an entry of the log. *)
Inductive event : Type :=
| EvRead (p : string)
| EvWrite (p d : string)
| EvRename (src dst : string)
| EvMkdir (p : string)
| EvGetMem
| EvPutMem (m : memory).

Definition event_of {X : Type} (o : op X) : event :=
  match o with
  | ReadFile p => EvRead p
  | WriteFile p d => EvWrite p d
  | Rename src dst => EvRename src dst
  | Mkdir p => EvMkdir p
  | GetMem => EvGetMem
  | PutMem m => EvPutMem m
  end.

(** Does the event touch the file system? *)
Definition fs_event (e : event) : bool :=
  match e with
  | EvRead _ | EvWrite _ _ | EvRename _ _ | EvMkdir _ => true
  | EvGetMem | EvPutMem _ => false
  end.

(** Outcome and final world. *)
Fixpoint run {A : Type} (m : prog A) (w : world) : result A * world :=
  match m with
  | Ret a => (Ok a, w)
  | Throw e => (Err e, w)
  | Do o k => let (r, w') := step o w in run (k r) w'
  end.

(** The effects performed, in order (a failed effect is logged too). *)
Fixpoint events {A : Type} (m : prog A) (w : world) : list event :=
  match m with
  | Ret _ | Throw _ => []
  | Do o k => let (r, w') := step o w in event_of o :: events (k r) w'
  end.

(** Every world an observer can see from the call to its end: the worlds
    between effects and the worlds inside a write.  A crash leaves the disk
    of one of them. *)
Fixpoint snapshots {A : Type} (m : prog A) (w : world) : list world :=
  match m with
  | Ret _ | Throw _ => [w]
  | Do o k => let (r, w') := step o w in w :: during o w ++ snapshots (k r) w'
  end.

(* ===================================================================== *)
(** * Cache keys                                                          *)
(* ===================================================================== *)

Definition hexchars : list ascii :=
  ["0"; "1"; "2"; "3"; "4"; "5"; "6"; "7";
   "8"; "9"; "a"; "b"; "c"; "d"; "e"; "f"]%char.

(** A cache key: sixty-four lower-case hexadecimal characters. *)
Definition is_key (s : string) : Prop :=
  String.length s = 64 /\ Forall (fun c => In c hexchars) (String.list_ascii_of_string s).





(* ===================================================================== *)
(** * Paths and invariants                                                *)
(* ===================================================================== *)

(** The two artifact paths of a key, as [get] and [set] compute them. *)
Definition meta_path (m : memory) (hash : string) : string :=
  path_join (entriesDir m) (hash +:+ ".meta.json").

Definition content_path (m : memory) (hash : string) : string :=
  path_join (entriesDir m) (hash +:+ ".content").

(** The module variables as [initializeCache] leaves them. *)
Definition initialized (m : memory) : Prop :=
  indexPath m = path_join (cacheDir m) "index.json" /\
  entriesDir m = path_join (cacheDir m) "entries".

(** An index as [set] and [get] build it from the empty one: one property
    per key, and each record filed under the key of its own URL. *)
Definition coherent (i : index_t) : Prop :=
  wf_object i /\ forall k s, obj_get k i = Some s -> k = hashURL (s_url s).

(** The files after [fs.writeFile(tmp, d)] then [fs.rename(tmp, final)]. *)
Definition replaced (final tmp d : string) (f : gmap string string) : gmap string string :=
  <[final := d]> (delete tmp (<[tmp := d]> f)).

(** The metadata document and the index record [set] builds. *)
Definition metadata_of (now url : string) (r : response) (content : string) : metadata :=
  Metadata url (hashURL url) (r_contentType r) (r_statusCode r)
           (String.length content) now (r_headers r).

Definition summary_of (now url content : string) : summary :=
  Summary url (String.length content) now.

(** In world [x] the file at [p] is what it was in [w], or is all of [d]. *)
Definition old_or_new (w x : world) (p d : string) : Prop :=
  files (disk x) !! p = files (disk w) !! p \/ files (disk x) !! p = Some d.

#[global] Instance summary_eq_dec : EqDecision summary.
Proof. solve_decision. Defined.
#[global] Instance response_eq_dec : EqDecision response.
Proof. solve_decision. Defined.
#[global] Instance metadata_eq_dec : EqDecision metadata.
Proof. solve_decision. Defined.
#[global] Instance listing_eq_dec : EqDecision listing.
Proof. solve_decision. Defined.
#[global] Instance memory_eq_dec : EqDecision memory.
Proof. solve_decision. Defined.
#[global] Instance event_eq_dec : EqDecision event.
Proof. solve_decision. Defined.
#[global] Instance fsys_eq_dec : EqDecision fsys.
Proof. solve_decision. Defined.
#[global] Instance world_eq_dec : EqDecision world.
Proof. solve_decision. Defined.

(** The effects of [saveIndex] and of [set] when nothing fails, in order. *)
Definition saveIndex_events `{JSON index_t} (m : memory) : list event :=
  [ EvGetMem;
    EvWrite (indexPath m +:+ ".tmp") (JSON_stringify (index m));
    EvRename (indexPath m +:+ ".tmp") (indexPath m) ].

Definition set_events `{JSON index_t, JSON metadata}
    (now url : string) (r : response) (content : string) (m : memory) : list event :=
  let h := hashURL url in
  let m' := with_index (obj_set h (summary_of now url content) (index m)) m in
  [ EvGetMem;
    EvWrite (content_path m h +:+ ".tmp") content;
    EvRename (content_path m h +:+ ".tmp") (content_path m h);
    EvWrite (meta_path m h +:+ ".tmp") (JSON_stringify (metadata_of now url r content));
    EvRename (meta_path m h +:+ ".tmp") (meta_path m h);
    EvGetMem;
    EvPutMem m' ] ++ saveIndex_events m'.

(** One of the four file operations on the artifacts of [h] is set to fail. *)
Definition artifact_write_fails (w : world) (h : string) : Prop :=
  is_Some (write_fault (disk w) !! (content_path (mem w) h +:+ ".tmp")) \/
  is_Some (rename_fault (disk w) !! content_path (mem w) h) \/
  is_Some (write_fault (disk w) !! (meta_path (mem w) h +:+ ".tmp")) \/
  is_Some (rename_fault (disk w) !! meta_path (mem w) h).

(* ===================================================================== *)
(** * Histories of requests                                               *)
(* ===================================================================== *)

(** The calls the route layer makes on the cache, one after the other. *)
Inductive request : Type :=
| SetReq (now url : string) (r : response) (content : string)
| GetReq (race : bool) (url : string).

Section history.
Context `{JSON index_t, JSON metadata}.

(** The world after one call, whatever it returned. *)
Definition serve_one (q : request) (w : world) : world :=
  match q with
  | SetReq now url r content => (run (cache.set now url r content) w).2
  | GetReq race url => (run (cache.get race url) w).2
  end.

Definition serve (qs : list request) (w : world) : world :=
  foldl (fun w q => serve_one q w) w qs.

End history.

(** The payload of the most recent [set] for [url] in the history. *)
Definition last_set (url : string) (qs : list request) : option string :=
  foldl (fun acc q =>
           match q with
           | SetReq _ u _ content => if decide (u = url) then Some content else acc
           | GetReq _ _ => acc
           end) None qs.

(** Every record of the index gives the length of the last payload set for
    its URL. *)
Definition tracks (qs : list request) (i : index_t) : Prop :=
  coherent i /\
  forall k s, obj_get k i = Some s ->
    exists content, last_set (s_url s) qs = Some content /\
                    s_byteSize s = String.length content.

(** [list]'s projection of a record. *)
Definition public (s : summary) : listing := Listing (s_url s) (s_byteSize s).

(* ===================================================================== *)
(** * A JSON printer and parser                                           *)
(* ===================================================================== *)

(** An instance of [JSON] to run the cache on: JSON text as
    [JSON.stringify(v, null, 2)] lays it out, and a parser of JSON text.
    Numbers are integers (the cache writes no others) and a [\u] escape
    stands for one byte.  The documents are typed: text that is JSON but
    not an index (or a metadata document) has no value here and is
    rejected like text that is not JSON, where JavaScript would go on with
    a value of another shape. *)
Module Json.

#[local] Unset Elimination Schemes.
Inductive value : Type :=
| Null
| Bool (b : bool)
| Num (n : Z)
| Str (s : string)
| Arr (l : list value)
| Obj (l : list (string * value)).
#[local] Set Elimination Schemes.

Definition chars : string -> list ascii := String.list_ascii_of_string.
Definition text : list ascii -> string := String.string_of_list_ascii.

(** The double quote. *)
Definition dquote : ascii := "034"%char.

(** *** Printing *)

Definition hex4 (n : N) : list ascii :=
  map (fun i => SHA256.nibble (Z.of_N n) i) [3; 2; 1; 0]%Z.

Definition escape (c : ascii) : list ascii :=
  if decide (c = dquote) then ["\"%char; dquote]
  else if decide (c = "\"%char) then ["\"; "\"]%char
  else if decide (c = "010"%char) then ["\"; "n"]%char
  else if decide (c = "013"%char) then ["\"; "r"]%char
  else if decide (c = "009"%char) then ["\"; "t"]%char
  else if decide (c = "008"%char) then ["\"; "b"]%char
  else if decide (c = "012"%char) then ["\"; "f"]%char
  else if (N_of_ascii c <? 32)%N then ["\"; "u"]%char ++ hex4 (N_of_ascii c)
  else [c].

Definition quote (s : string) : string :=
  text ([dquote] ++ flat_map escape (chars s) ++ [dquote]).

Definition newline (indent : nat) : string :=
  String "010" (text (repeat " "%char indent)).

Fixpoint join (sep : string) (l : list string) : string :=
  match l with
  | [] => ""
  | [s] => s
  | s :: l' => s +:+ sep +:+ join sep l'
  end.

Fixpoint print (indent : nat) (v : value) : string :=
  match v with
  | Null => "null"
  | Bool true => "true"
  | Bool false => "false"
  | Num n => DecimalString.NilZero.string_of_int (Z.to_int n)
  | Str s => quote s
  | Arr [] => "[]"
  | Arr l =>
      "[" +:+ newline (indent + 2)
      +:+ join ("," +:+ newline (indent + 2)) (map (print (indent + 2)) l)
      +:+ newline indent +:+ "]"
  | Obj [] => "{}"
  | Obj l =>
      "{" +:+ newline (indent + 2)
      +:+ join ("," +:+ newline (indent + 2))
            (map (fun kv => quote (fst kv) +:+ ": " +:+ print (indent + 2) (snd kv)) l)
      +:+ newline indent +:+ "}"
  end.

(** *** Parsing *)

Definition is_ws (c : ascii) : bool :=
  bool_decide (c = " "%char \/ c = "010"%char \/ c = "013"%char \/ c = "009"%char).

Fixpoint skip_ws (l : list ascii) : list ascii :=
  match l with
  | c :: l' => if is_ws c then skip_ws l' else l
  | [] => []
  end.

Definition hexval (c : ascii) : option N :=
  let n := N_of_ascii c in
  if ((48 <=? n) && (n <=? 57))%N then Some (n - 48)%N
  else if ((97 <=? n) && (n <=? 102))%N then Some (n - 87)%N
  else if ((65 <=? n) && (n <=? 70))%N then Some (n - 55)%N
  else None.

Definition unescape (c : ascii) : option ascii :=
  if decide (c = dquote) then Some dquote
  else if decide (c = "\"%char) then Some "\"%char
  else if decide (c = "/"%char) then Some "/"%char
  else if decide (c = "n"%char) then Some "010"%char
  else if decide (c = "r"%char) then Some "013"%char
  else if decide (c = "t"%char) then Some "009"%char
  else if decide (c = "b"%char) then Some "008"%char
  else if decide (c = "f"%char) then Some "012"%char
  else None.

(** The rest of a string literal, after its opening quote. *)
Fixpoint string_body (l : list ascii) : option (list ascii * list ascii) :=
  match l with
  | [] => None
  | c :: rest =>
      if decide (c = dquote) then Some ([], rest)
      else if decide (c = "\"%char) then
        match rest with
        | e :: rest' =>
            if decide (e = "u"%char) then
              match rest' with
              | h1 :: h2 :: h3 :: h4 :: rest'' =>
                  match hexval h1, hexval h2, hexval h3, hexval h4 with
                  | Some 0%N, Some 0%N, Some a, Some b =>
                      match string_body rest'' with
                      | Some (s, r) => Some (ascii_of_N (16 * a + b) :: s, r)
                      | None => None
                      end
                  | _, _, _, _ => None
                  end
              | _ => None
              end
            else
              match unescape e, string_body rest' with
              | Some c', Some (s, r) => Some (c' :: s, r)
              | _, _ => None
              end
        | [] => None
        end
      else if (N_of_ascii c <? 32)%N then None
      else
        match string_body rest with
        | Some (s, r) => Some (c :: s, r)
        | None => None
        end
  end.

Definition is_digit (c : ascii) : bool :=
  ((48 <=? N_of_ascii c) && (N_of_ascii c <=? 57))%N.

Fixpoint digits (l : list ascii) : list ascii * list ascii :=
  match l with
  | c :: l' => if is_digit c then let (d, r) := digits l' in (c :: d, r) else ([], l)
  | [] => ([], [])
  end.

Definition number (l : list ascii) : option (Z * list ascii) :=
  let (sign, l') :=
    match l with
    | c :: r => if decide (c = "-"%char) then (["-"%char], r) else ([], l)
    | [] => ([], l)
    end in
  let (d, r) := digits l' in
  match d with
  | [] => None
  | _ =>
      match DecimalString.NilZero.int_of_string (text (sign ++ d)) with
      | Some i => Some (Z.of_int i, r)
      | None => None
      end
  end.

Definition literal (word : string) (v : value) (l : list ascii)
  : option (value * list ascii) :=
  let w := chars word in
  if decide (take (length w) l = w) then Some (v, drop (length w) l) else None.

Fixpoint parse_value (fuel : nat) (l : list ascii) : option (value * list ascii) :=
  match fuel with
  | O => None
  | S fuel' =>
      match skip_ws l with
      | [] => None
      | c :: rest =>
          if decide (c = dquote) then
            match string_body rest with
            | Some (s, r) => Some (Str (text s), r)
            | None => None
            end
          else if decide (c = "["%char) then
            match skip_ws rest with
            | c' :: rest' =>
                if decide (c' = "]"%char) then Some (Arr [], rest')
                else match parse_elements fuel' rest with
                     | Some (vs, r) => Some (Arr vs, r)
                     | None => None
                     end
            | [] => None
            end
          else if decide (c = "{"%char) then
            match skip_ws rest with
            | c' :: rest' =>
                if decide (c' = "}"%char) then Some (Obj [], rest')
                else match parse_members fuel' rest with
                     | Some (kvs, r) => Some (Obj kvs, r)
                     | None => None
                     end
            | [] => None
            end
          else if decide (c = "n"%char) then literal "null" Null (c :: rest)
          else if decide (c = "t"%char) then literal "true" (Bool true) (c :: rest)
          else if decide (c = "f"%char) then literal "false" (Bool false) (c :: rest)
          else match number (c :: rest) with
               | Some (n, r) => Some (Num n, r)
               | None => None
               end
      end
  end
with parse_elements (fuel : nat) (l : list ascii) : option (list value * list ascii) :=
  match fuel with
  | O => None
  | S fuel' =>
      match parse_value fuel' l with
      | Some (v, r) =>
          match skip_ws r with
          | c :: r' =>
              if decide (c = ","%char) then
                match parse_elements fuel' r' with
                | Some (vs, r'') => Some (v :: vs, r'')
                | None => None
                end
              else if decide (c = "]"%char) then Some ([v], r')
              else None
          | [] => None
          end
      | None => None
      end
  end
with parse_members (fuel : nat) (l : list ascii)
  : option (list (string * value) * list ascii) :=
  match fuel with
  | O => None
  | S fuel' =>
      match skip_ws l with
      | q :: l' =>
          if decide (q = dquote) then
            match string_body l' with
            | Some (k, r) =>
                match skip_ws r with
                | colon :: r0 =>
                    if decide (colon = ":"%char) then
                      match parse_value fuel' r0 with
                      | Some (v, r1) =>
                          match skip_ws r1 with
                          | c :: r2 =>
                              if decide (c = ","%char) then
                                match parse_members fuel' r2 with
                                | Some (kvs, r3) => Some ((text k, v) :: kvs, r3)
                                | None => None
                                end
                              else if decide (c = "}"%char) then Some ([(text k, v)], r2)
                              else None
                          | [] => None
                          end
                      | None => None
                      end
                    else None
                | [] => None
                end
            | None => None
            end
          else None
      | [] => None
      end
  end.

Definition parse (s : string) : option value :=
  match parse_value (2 * String.length s + 2) (chars s) with
  | Some (v, r) => match skip_ws r with [] => Some v | _ => None end
  | None => None
  end.

(** *** The cache's documents as JSON values *)

(** The properties of a parsed object: a later duplicate of a key
    overrides the earlier one, in the earlier one's place. *)
Definition properties {V : Type} (l : list (string * V)) : jsobject V :=
  foldl (fun o kv => obj_set (fst kv) (snd kv) o) [] l.

Definition of_str (v : value) : option string :=
  match v with Str s => Some s | _ => None end.

Definition of_num (v : value) : option Z :=
  match v with Num n => Some n | _ => None end.

Definition of_size (v : value) : option nat :=
  match v with Num n => if decide (0 <= n)%Z then Some (Z.to_nat n) else None | _ => None end.

Definition of_obj (v : value) : option (jsobject value) :=
  match v with Obj l => Some (properties l) | _ => None end.

Definition field {V : Type} (o : jsobject value) (k : string)
    (dec : value -> option V) : option V :=
  obj_get k o ≫= dec.

(** Each property decoded, in order; [None] as soon as one fails. *)
Fixpoint decode_all {V : Type} (dec : value -> option V) (o : jsobject value)
  : option (jsobject V) :=
  match o with
  | [] => Some []
  | (k, v) :: o' =>
      match dec v, decode_all dec o' with
      | Some x, Some r => Some ((k, x) :: r)
      | _, _ => None
      end
  end.

Definition summary_to_json (s : summary) : value :=
  Obj [("url", Str (s_url s)); ("byteSize", Num (Z.of_nat (s_byteSize s)));
       ("cachedAt", Str (s_cachedAt s))].

Definition summary_of_json (v : value) : option summary :=
  o ← of_obj v;
  url ← field o "url" of_str;
  size ← field o "byteSize" of_size;
  at_ ← field o "cachedAt" of_str;
  Some (Summary url size at_).

Definition index_to_json (i : index_t) : value :=
  Obj (map (fun kv => (fst kv, summary_to_json (snd kv))) i).

Definition index_of_json (v : value) : option index_t :=
  of_obj v ≫= decode_all summary_of_json.

Definition metadata_to_json (m : metadata) : value :=
  Obj [("url", Str (m_url m)); ("hash", Str (m_hash m));
       ("contentType", Str (m_contentType m));
       ("statusCode", Num (m_statusCode m));
       ("byteSize", Num (Z.of_nat (m_byteSize m)));
       ("cachedAt", Str (m_cachedAt m));
       ("headers", Obj (map (fun kv => (fst kv, Str (snd kv))) (m_headers m)))].

Definition metadata_of_json (v : value) : option metadata :=
  o ← of_obj v;
  url ← field o "url" of_str;
  hash ← field o "hash" of_str;
  type ← field o "contentType" of_str;
  status ← field o "statusCode" of_num;
  size ← field o "byteSize" of_size;
  at_ ← field o "cachedAt" of_str;
  headers ← field o "headers" (fun h => of_obj h ≫= decode_all of_str);
  Some (Metadata url hash type status size at_ headers).

End Json.

Definition json_index : JSON index_t :=
  {| JSON_stringify i := Json.print 0 (Json.index_to_json i);
     JSON_parse s := Json.parse s ≫= Json.index_of_json |}.

Definition json_metadata : JSON metadata :=
  {| JSON_stringify m := Json.print 0 (Json.metadata_to_json m);
     JSON_parse s := Json.parse s ≫= Json.metadata_of_json |}.

(* ===================================================================== *)
(** * Sample worlds                                                       *)
(* ===================================================================== *)

Module Sample.

Definition dir : string := "/app/cache".
Definition url_a : string := "https://a.example".
Definition url_b : string := "https://b.example".
Definition url_c : string := "https://c.example".
Definition stamp : string := "2024-01-01T00:00:00.000Z".

Definition html : response :=
  Response 200 [("content-type", "text/html")] "text/html".

Definition plain : response :=
  Response 200 [("content-type", "text/plain")] "text/plain".

Definition vars (i : index_t) : memory :=
  Memory dir (path_join dir "index.json") (path_join dir "entries") i.

Definition disk_of (f : gmap string string) : fsys := Fsys f ∅ ∅ ∅ ∅ ∅.

(** A cache directory never used before. *)
Definition fresh : world := World (vars []) (disk_of ∅).

(** A record for [url_a], and no file at all. *)
Definition stale : world :=
  World (vars [(hashURL url_a, Summary url_a 5 stamp)]) (disk_of ∅).

(** Both artifacts of [url_a] on disk, and no record. *)
Definition orphan : world :=
  World (vars [])
    (disk_of (<[content_path (vars []) (hashURL url_a) := "hello"]>
             (<[meta_path (vars []) (hashURL url_a) := "{}"]> ∅))).

(** A record and both artifacts, the metadata file cut short. *)
Definition torn : world :=
  World (vars [(hashURL url_a, Summary url_a 5 stamp)])
    (disk_of (<[content_path (vars []) (hashURL url_a) := "hello"]>
             (<[meta_path (vars []) (hashURL url_a) := "{ url: https://a.ex"]> ∅))).

(** A record for [url_a], its metadata file missing, its content file
    unreadable. *)
Definition mixed : world :=
  World (vars [(hashURL url_a, Summary url_a 5 stamp)])
    (Fsys ∅ ∅ {[content_path (vars []) (hashURL url_a) := EACCES]} ∅ ∅ ∅).

(** A record and both artifacts of [url_a], the content file unreadable. *)
Definition locked : world :=
  World (vars [(hashURL url_a, Summary url_a 5 stamp)])
    (Fsys (<[content_path (vars []) (hashURL url_a) := "hello"]>
          (<[meta_path (vars []) (hashURL url_a) := "{}"]> ∅))
          ∅ {[content_path (vars []) (hashURL url_a) := EACCES]} ∅ ∅ ∅).

(** The first two bytes of the content of [url_a] in its temporary file. *)
Definition half : world :=
  World (vars [])
    (disk_of {[content_path (vars []) (hashURL url_a) +:+ ".tmp" := "he"]}).

(** Three URLs stored, of 5, 12 and 0 bytes. *)
Definition three : list request :=
  [ SetReq stamp url_a html "hello";
    SetReq stamp url_b plain "hello, world";
    SetReq stamp url_c plain "" ].

(** The disk refuses the rename onto the metadata file of [url_a]. *)
Definition stuck : world :=
  World (vars [])
    (Fsys ∅ ∅ ∅ ∅ {[meta_path (vars []) (hashURL url_a) := EIO]} ∅).

(** The world before start-up on a directory whose index file is [doc]. *)
Definition boot (doc : option string) : world :=
  World (Memory "" "" "" [])
    (disk_of (match doc with
              | Some d => {[path_join dir "index.json" := d]}
              | None => ∅
              end)).

End Sample.

(* ===================================================================== *)
(** * Further notions                                                     *)
(* ===================================================================== *)

(** The path variables of [x] are those of [w]. *)
Definition same_vars (w x : world) : Prop :=
  cacheDir (mem x) = cacheDir (mem w) /\
  indexPath (mem x) = indexPath (mem w) /\
  entriesDir (mem x) = entriesDir (mem w).

(** The index file holds the index that is in memory. *)
Definition synced `{JSON index_t} (w : world) : Prop :=
  files (disk w) !! indexPath (mem w) = Some (JSON_stringify (index (mem w))).

(** The six paths [set] works on for a key, and the two of [saveIndex]. *)
Definition index_paths (m : memory) : list string :=
  [indexPath m; indexPath m +:+ ".tmp"].

Definition entry_paths (m : memory) (h : string) : list string :=
  [content_path m h; content_path m h +:+ ".tmp";
   meta_path m h; meta_path m h +:+ ".tmp"].

(** ** Faults of interest *)

(** The four artifact operations of [set] for key [h] go through. *)
Definition artifacts_writable (w : world) (h : string) : Prop :=
  write_fault (disk w) !! (content_path (mem w) h +:+ ".tmp") = None /\
  rename_fault (disk w) !! content_path (mem w) h = None /\
  write_fault (disk w) !! (meta_path (mem w) h +:+ ".tmp") = None /\
  rename_fault (disk w) !! meta_path (mem w) h = None.

(** One of the two operations of [saveIndex] is set to fail. *)
Definition index_write_fails (w : world) : Prop :=
  is_Some (write_fault (disk w) !! (indexPath (mem w) +:+ ".tmp")) \/
  is_Some (rename_fault (disk w) !! indexPath (mem w)).

(** The metadata step of [set] for key [h] is set to fail. *)
Definition metadata_write_fails (w : world) (h : string) : Prop :=
  is_Some (write_fault (disk w) !! (meta_path (mem w) h +:+ ".tmp")) \/
  is_Some (rename_fault (disk w) !! meta_path (mem w) h).

(* ===================================================================== *)
(** * The fetcher and the routes                                          *)
(* ===================================================================== *)

(** [new URL(url)]: the protocol of a URL that parses, or the message of
    the [TypeError] thrown.  The WHATWG parser belongs to the runtime; the
    development is parametric in it. *)
Inductive parsed : Type := Invalid (message : string) | Parsed (protocol : string).

Class URL_API : Type := { URL_parse : string -> parsed }.

(** [a || b] on strings: [undefined] and the empty string are falsy. *)
Definition or_string (a : option string) (b : string) : string :=
  match a with
  | Some s => if decide (s = "") then b else s
  | None => b
  end.

(** [a || b] on numbers: [undefined] and zero are falsy. *)
Definition or_number (a : option Z) (b : Z) : Z :=
  match a with
  | Some n => if decide (n = 0%Z) then b else n
  | None => b
  end.

(** An integer in a template string. *)
Definition show (n : Z) : string := DecimalString.NilZero.string_of_int (Z.to_int n).

Module fetcher.

(** What the origin answered, its body read: the status, the headers as
    [Headers.forEach] goes through them (lower-case names), the body. *)
Record answer : Type := Answer
  { a_status : Z; a_headers : list (string * string); a_body : string }.

(** An error of [fetch] or of [arrayBuffer]: its [name], its [cause] (with
    [code] and [message]) and its [message]. *)
Record cause : Type := Cause { c_code : option string; c_message : string }.

Record failure : Type := Failure
  { e_name : string; e_cause : option cause; e_message : string }.

(** The network: what [fetch(url, ..)] settles to when the abort timer is
    set to the given number of milliseconds. *)
Definition network : Type := string -> Z -> failure + answer.

(** What [fetchURL] returns. *)
Record fetched : Type := Fetched
  { statusCode : Z; headers : jsobject string; body : string; contentType : string }.

(** [headers[key] = value]: on a plain object, assigning a string to
    [__proto__] creates no property. *)
Definition assign (o : jsobject string) (kv : string * string) : jsobject string :=
  if decide (kv.1 = "__proto__") then o else obj_set kv.1 kv.2 o.

(** [const headers = {}; response.headers.forEach(...)] *)
Definition header_object (l : list (string * string)) : jsobject string :=
  foldl assign [] l.

Section fetch.
Context `{URL_API}.

(** [fetchURL(url, options)], [timeout] being [options.timeout]; [inl] is
    the message of the [Error] thrown. *)
Definition fetchURL (net : network) (url : string) (timeout : option Z)
  : string + fetched :=
  match URL_parse url with
  | Invalid message => inl ("Invalid URL: " +:+ message)
  | Parsed protocol =>
      if bool_decide (protocol <> "http:") && bool_decide (protocol <> "https:") then
        inl ("Unsupported protocol: " +:+ protocol
             +:+ ". Only http: and https: are allowed.")
      else
        let timeout := or_number timeout 30000 in
        match net url timeout with
        | inr response =>
            let contentType :=
              or_string (obj_get "content-type" (a_headers response))
                        "application/octet-stream" in
            inr (Fetched (a_status response) (header_object (a_headers response))
                         (a_body response) contentType)
        | inl error =>
            if bool_decide (e_name error = "AbortError") then
              inl ("Request timeout after " +:+ show timeout +:+ "ms")
            else
              match e_cause error with
              | Some c => inl ("Network error: " +:+ or_string (c_code c) (c_message c))
              | None => inl ("Failed to fetch: " +:+ e_message error)
              end
        end
  end.

End fetch.
End fetcher.

Module routes.

(** What a handler's [catch] receives: an error of the cache, or the
    [Error] of [fetchURL] with its message. *)
Inductive thrown : Type :=
| CacheError (e : error)
| FetchError (message : string).

(** The body of a reply: the content, or one of the error objects. *)
Inductive payload : Type :=
| Content (bytes : string)
| MissingParameter
| InvalidURL (message url : string)
| UpstreamError (url : string) (status : Z)
| FailedToFetch (why : thrown) (url : string)
| InternalServerError (e : error)
| Listing_ (items : list listing).

(** A reply: status code (200 unless [reply.code] set it), the content
    type given by [reply.type], the body. *)
Record reply : Type := Reply
  { code : Z; type : option string; payload_ : payload }.

(** [config.fetchTimeout] *)
Definition fetchTimeout : Z := 30000.

(** The response descriptor [cache.set] reads off what [fetchURL] returned. *)
Definition descriptor (f : fetcher.fetched) : response :=
  Response (fetcher.statusCode f) (fetcher.headers f) (fetcher.contentType f).

Section handlers.
Context `{JSON index_t, JSON metadata, URL_API}.

(** The handler of [GET /GetURL]; [query] is [request.query.url]. *)
Definition GetURL (net : fetcher.network) (race : bool) (now : string)
    (query : option string) (w : world) : reply * world :=
  match query with
  | None => (Reply 400 None MissingParameter, w)
  | Some url =>
      if decide (url = "") then (Reply 400 None MissingParameter, w)
      else
        match URL_parse url with
        | Invalid message => (Reply 400 None (InvalidURL message url), w)
        | Parsed _ =>
            match run (cache.get race url) w with
            | (Err e, w1) => (Reply 502 None (FailedToFetch (CacheError e) url), w1)
            | (Ok (Some (metadata, content)), w1) =>
                (Reply 200 (Some (m_contentType metadata)) (Content content), w1)
            | (Ok None, w1) =>
                match fetcher.fetchURL net url (Some fetchTimeout) with
                | inl message =>
                    (Reply 502 None (FailedToFetch (FetchError message) url), w1)
                | inr response =>
                    if (200 <=? fetcher.statusCode response)%Z
                       && (fetcher.statusCode response <? 300)%Z then
                      match run (cache.set now url (descriptor response)
                                   (fetcher.body response)) w1 with
                      | (Ok _, w2) =>
                          (Reply 200 (Some (fetcher.contentType response))
                                 (Content (fetcher.body response)), w2)
                      | (Err e, w2) =>
                          (Reply 502 None (FailedToFetch (CacheError e) url), w2)
                      end
                    else
                      (Reply (fetcher.statusCode response) None
                             (UpstreamError url (fetcher.statusCode response)), w1)
                end
            end
        end
  end.

(** The handler of [GET /Contents]; an error would go to the server's
    error handler, which answers 500. *)
Definition Contents (w : world) : reply * world :=
  match run cache.list w with
  | (Ok items, w') => (Reply 200 None (Listing_ items), w')
  | (Err e, w') => (Reply 500 None (InternalServerError e), w')
  end.

End handlers.
End routes.

(** ** What a first request stores and answers *)

Section served.
Import routes.
Context `{URL_API}.

(** What a first request for [url] stores and answers, the origin having
    answered [a]. *)
Definition stored (now url : string) (a : fetcher.answer) : metadata :=
  metadata_of now url
    (Response (fetcher.a_status a) (fetcher.header_object (fetcher.a_headers a))
       (or_string (obj_get "content-type" (fetcher.a_headers a)) "application/octet-stream"))
    (fetcher.a_body a).

Definition served (a : fetcher.answer) : reply :=
  Reply 200
    (Some (or_string (obj_get "content-type" (fetcher.a_headers a)) "application/octet-stream"))
    (Content (fetcher.a_body a)).

Definition is_http (url : string) : Prop :=
  url <> "" /\ (URL_parse url = Parsed "http:" \/ URL_parse url = Parsed "https:").

Definition success (status : Z) : Prop := (200 <= status < 300)%Z.

End served.
(* ===================================================================== *)
(** * Sample origins and faulty disks                                     *)
(* ===================================================================== *)

Module Origin.
#[local] Existing Instances json_index json_metadata.

(** A URL parser for the samples: it knows three schemes. *)
Definition scheme (url : string) : parsed :=
  if String.prefix "https://" url then Parsed "https:"
  else if String.prefix "http://" url then Parsed "http:"
  else if String.prefix "ftp://" url then Parsed "ftp:"
  else Invalid "Invalid URL".

Definition sample_URL : URL_API := {| URL_parse := scheme |}.

(** A page of five bytes, and the answer for a page that is not there. *)
Definition page : fetcher.answer :=
  fetcher.Answer 200 [("content-length", "5"); ("content-type", "text/html")] "hello".

Definition missing : fetcher.answer :=
  fetcher.Answer 404 [("content-type", "text/plain")] "not here".

(** An origin that answers every request with the page. *)
Definition up : fetcher.network := fun _ _ => inr page.

(** An origin that has no page at all. *)
Definition gone : fetcher.network := fun _ _ => inr missing.

(** An origin that takes longer than the timeout. *)
Definition aborted : fetcher.failure :=
  fetcher.Failure "AbortError" None "This operation was aborted".

Definition slow : fetcher.network := fun _ _ => inl aborted.

(** An origin that refuses the connection. *)
Definition down : fetcher.network :=
  fun _ _ => inl (fetcher.Failure "TypeError"
                    (Some (fetcher.Cause (Some "ECONNREFUSED") "connect ECONNREFUSED"))
                    "fetch failed").

(** The world [w] on a disk that refuses the rename onto the index file. *)
Definition refusing_index (w : world) : world :=
  World (mem w)
    (Fsys (files (disk w)) (dirs (disk w)) ∅ ∅ {[indexPath (mem w) := EIO]} ∅).

(** The world [w] on a disk that refuses the rename onto the metadata file
    of [url]. *)
Definition refusing_metadata (url : string) (w : world) : world :=
  World (mem w)
    (Fsys (files (disk w)) (dirs (disk w)) ∅ ∅
          {[meta_path (mem w) (hashURL url) := EIO]} ∅).

(** The world after the first start-up on an empty directory. *)
Definition started : world :=
  (run (cache.initializeCache Sample.dir) (Sample.boot None)).2.

(** The cache after one URL was stored, and after three. *)
Definition once : world :=
  serve [SetReq Sample.stamp Sample.url_a Sample.html "hello"] Sample.fresh.

Definition filled : world := serve Sample.three Sample.fresh.

End Origin.


(* ===================================================================== *)
(** * Properties                                                          *)
(* ===================================================================== *)

(** ** SHA-256 on the standard test vectors *)

Example hashURL_empty :
  hashURL "" = "e3b0c44298fc1c149afbf4c8996fb92427ae41e4649b934ca495991b7852b855".
Proof. vm_compute. reflexivity. Qed.

Example hashURL_abc :
  hashURL "abc" = "ba7816bf8f01cfea414140de5dae2223b00361a396177a9cb410ff61f20015ad".
Proof. vm_compute. reflexivity. Qed.

Example hashURL_two_blocks :
  hashURL "abcdbcdecdefdefgefghfghighijhijkijkljklmklmnlmnomnopnopq"
  = "248d6a61d20638b8e5c026930c3e6039a33ce45964ff2167f6ecedd419db06c1".
Proof. vm_compute. reflexivity. Qed.

Section semantics.
Context {A B : Type}.
Implicit Types (m : prog A) (f : A -> prog B) (w : world).

Lemma run_bind m f w :
  run (bind m f) w =
  match run m w with
  | (Ok a, w') => run (f a) w'
  | (Err e, w') => (Err e, w')
  end.
Proof.
  revert w; induction m as [a|e|X o k IH]; intros w; simpl; try reflexivity.
  destruct (step o w) as [r w']. apply IH.
Qed.

Lemma events_bind m f w :
  events (bind m f) w =
  events m w ++
  match run m w with
  | (Ok a, w') => events (f a) w'
  | (Err e, w') => []
  end.
Proof.
  revert w; induction m as [a|e|X o k IH]; intros w; simpl; try reflexivity.
  destruct (step o w) as [r w']. rewrite IH. reflexivity.
Qed.

Lemma snapshots_bind m f w x :
  x ∈ snapshots (bind m f) w ->
  x ∈ snapshots m w \/
  exists a w', run m w = (Ok a, w') /\ x ∈ snapshots (f a) w'.
Proof.
  revert w; induction m as [a|e|X o k IH]; intros w; simpl.
  - intros Hx. right. eauto.
  - intros Hx. left. exact Hx.
  - destruct (step o w) as [r w']. intros Hx.
    apply elem_of_cons in Hx as [->|Hx]; [left; apply elem_of_cons; auto|].
    apply elem_of_app in Hx as [Hx|Hx].
    + left. apply elem_of_cons; right. apply elem_of_app; auto.
    + destruct (IH r w' Hx) as [Hl|(a & w'' & Hr & Hin)].
      * left. apply elem_of_cons; right. apply elem_of_app; auto.
      * right. eauto.
Qed.

End semantics.

Lemma run_try_catch {A : Type} (m : prog A) (h : error -> prog A) (w : world) :
  run (try_catch m h) w =
  match run m w with
  | (Ok a, w') => (Ok a, w')
  | (Err e, w') => run (h e) w'
  end.
Proof.
  revert w; induction m as [a|e|X o k IH]; intros w; simpl; try reflexivity.
  destruct (step o w) as [r w']. apply IH.
Qed.





Lemma nibble_hex w i : In (SHA256.nibble w i) hexchars.
Proof.
  unfold SHA256.nibble, SHA256.hexdigit.
  apply nth_In. change (length _) with 16.
  change 15%Z with (Z.ones 4). rewrite Z.land_ones by lia.
  pose proof (Z.mod_pos_bound (Z.shiftr w (4 * i)) (2 ^ 4) ltac:(lia)). lia.
Qed.

Lemma hex_digest_is_key h : is_key (SHA256.hex_digest h).
Proof.
  split; [reflexivity|].
  unfold SHA256.hex_digest, SHA256.hex_word; simpl.
  repeat (constructor; [apply nibble_hex|]). constructor.
Qed.

Lemma hashURL_is_key url : is_key (hashURL url).
Proof. apply hex_digest_is_key. Qed.







(** ** Paths are pairwise distinct *)

Lemma chars_app (a b : string) :
  String.list_ascii_of_string (a +:+ b) =
  String.list_ascii_of_string a ++ String.list_ascii_of_string b.
Proof.
  induction a as [|c a IH]; [reflexivity|].
  change (String c a +:+ b) with (String c (a +:+ b)). simpl. by rewrite IH.
Qed.

Lemma chars_inj (a b : string) :
  String.list_ascii_of_string a = String.list_ascii_of_string b -> a = b.
Proof.
  intros E. rewrite <- (String.string_of_list_ascii_of_string a),
    <- (String.string_of_list_ascii_of_string b). by rewrite E.
Qed.

Lemma tmp_ne (p : string) : p +:+ ".tmp" <> p.
Proof.
  intros E. apply (f_equal String.list_ascii_of_string) in E.
  rewrite chars_app in E. apply (f_equal length) in E.
  rewrite length_app in E. simpl in E. lia.
Qed.

(** Paths as character lists, with the common directory cancelled. *)
Ltac path_chars E :=
  apply (f_equal String.list_ascii_of_string) in E;
  unfold meta_path, content_path, path_join in E;
  repeat rewrite chars_app in E;
  cbn [String.list_ascii_of_string] in E;
  repeat rewrite <- app_assoc in E; cbn [app] in E;
  repeat (apply app_inv_head in E); simplify_eq.

(** What is left differs in its last characters, or is the same key. *)
Ltac path_tail E :=
  first
    [ apply app_inv_tail, chars_inj in E; congruence
    | apply (f_equal (@rev ascii)) in E;
      repeat rewrite rev_app_distr in E; cbn [rev app] in E; simplify_eq ].

Ltac path_ne :=
  let E := fresh "E" in
  intros E; first [ exact (tmp_ne _ E) | exact (tmp_ne _ (eq_sym E))
                  | path_chars E; try path_tail E ].

Section paths.
Variables (dir k k' : string).
Let entries := path_join dir "entries".
Let indexFile := path_join dir "index.json".
Let content x := path_join entries (x +:+ ".content").
Let meta x := path_join entries (x +:+ ".meta.json").

Lemma index_ne_entry :
  Forall (fun p => p <> indexFile /\ p <> indexFile +:+ ".tmp")
    [content k; content k +:+ ".tmp"; meta k; meta k +:+ ".tmp"].
Proof.
  unfold content, meta, entries, indexFile.
  repeat (first [apply Forall_cons | apply Forall_nil | split]); path_ne.
Qed.

Lemma content_ne_meta :
  Forall (fun p => p <> meta k' /\ p <> meta k' +:+ ".tmp")
    [content k; content k +:+ ".tmp"].
Proof.
  unfold content, meta, entries, indexFile.
  repeat (first [apply Forall_cons | apply Forall_nil | split]); path_ne.
Qed.

Lemma content_ne_tmp : content k <> content k' +:+ ".tmp".
Proof. unfold content, entries. path_ne. Qed.

Lemma meta_ne_tmp : meta k <> meta k' +:+ ".tmp".
Proof. unfold meta, entries. path_ne. Qed.

Lemma other_key_ne :
  k <> k' ->
  content k <> content k' /\ meta k <> meta k' /\
  content k +:+ ".tmp" <> content k' +:+ ".tmp" /\
  meta k +:+ ".tmp" <> meta k' +:+ ".tmp".
Proof. intros Hk. unfold content, meta, entries. repeat split; path_ne. Qed.

End paths.

(** ** Objects as maps *)

Section jsobject_facts.
Context {V : Type}.
Implicit Types (o : jsobject V) (k : string) (v : V).

Lemma obj_get_set_eq k v o : obj_get k (obj_set k v o) = Some v.
Proof.
  induction o as [|[k' v'] o IH]; simpl.
  - by rewrite decide_True.
  - destruct (decide (k' = k)) as [->|Hne]; simpl.
    + by rewrite decide_True.
    + by rewrite decide_False.
Qed.

Lemma obj_get_set_ne k k' v o : k <> k' -> obj_get k' (obj_set k v o) = obj_get k' o.
Proof.
  intros Hne. induction o as [|[k0 v0] o IH]; simpl.
  - by rewrite decide_False.
  - destruct (decide (k0 = k)) as [->|Hk0]; simpl.
    + by rewrite !decide_False.
    + destruct (decide (k0 = k')); [done|exact IH].
Qed.

Lemma obj_get_delete_eq k o : obj_get k (obj_delete k o) = None.
Proof.
  induction o as [|[k0 v0] o IH]; simpl; [done|].
  destruct (decide (k0 = k)) as [->|Hk0]; simpl; [done|]. by rewrite decide_False.
Qed.

Lemma obj_get_delete_ne k k' o : k <> k' -> obj_get k' (obj_delete k o) = obj_get k' o.
Proof.
  intros Hne. induction o as [|[k0 v0] o IH]; simpl; [done|].
  destruct (decide (k0 = k)) as [->|Hk0]; simpl.
  - by rewrite decide_False.
  - destruct (decide (k0 = k')); [done|exact IH].
Qed.


Lemma obj_get_elem_of k v o : obj_get k o = Some v -> (k, v) ∈ o.
Proof.
  induction o as [|[k0 v0] o IH]; simpl; [done|].
  destruct (decide (k0 = k)) as [->|Hk0].
  - intros [= ->]. apply elem_of_cons. by left.
  - intros Hg. apply elem_of_cons. right. by apply IH.
Qed.

Lemma elem_of_obj_get k v o : wf_object o -> (k, v) ∈ o -> obj_get k o = Some v.
Proof.
  unfold wf_object. induction o as [|[k0 v0] o IH]; simpl; intros Hwf Hin.
  - destruct (not_elem_of_nil _ Hin).
  - apply NoDup_cons in Hwf as [Hk0 Hwf].
    apply elem_of_cons in Hin as [[= <- <-]|Hin]; [by rewrite decide_True|].
    destruct (decide (k0 = k)) as [->|Hne]; [|by apply IH].
    exfalso. apply Hk0. change k with (fst (k, v)). by apply list_elem_of_fmap_2.
Qed.

Lemma obj_keys_set k v o :
  obj_keys (obj_set k v o) =
  if decide (k ∈ obj_keys o) then obj_keys o else obj_keys o ++ [k].
Proof.
  induction o as [|[k0 v0] o IH].
  - cbn. case_decide as Hin; [destruct (not_elem_of_nil _ Hin)|done].
  - cbn [obj_set]. destruct (decide (k0 = k)) as [->|Hk0].
    + cbn. rewrite decide_True; [done|]. apply elem_of_cons; by left.
    + change (obj_keys ((k0, v0) :: obj_set k v o)) with (k0 :: obj_keys (obj_set k v o)).
      change (obj_keys ((k0, v0) :: o)) with (k0 :: obj_keys o).
      rewrite IH. destruct (decide (k ∈ obj_keys o)) as [Hin|Hnin].
      * rewrite decide_True; [done|]. apply elem_of_cons; by right.
      * rewrite decide_False; [done|]. rewrite not_elem_of_cons. split; [congruence|done].
Qed.

Lemma obj_keys_delete k o : obj_keys (obj_delete k o) = filter (fun k' => k' <> k) (obj_keys o).
Proof.
  induction o as [|[k0 v0] o IH]; simpl; [done|].
  destruct (decide (k0 = k)) as [->|Hk0].
  - rewrite filter_cons_False; [exact IH|]. by intros Hc.
  - rewrite filter_cons_True by done. simpl. by rewrite IH.
Qed.

Lemma wf_object_set k v o : wf_object o -> wf_object (obj_set k v o).
Proof.
  unfold wf_object. rewrite obj_keys_set. intros Hwf.
  destruct (decide (k ∈ obj_keys o)) as [Hin|Hnin]; [done|].
  apply NoDup_app. split; [done|]. split; [|apply NoDup_singleton].
  intros x Hx Hx'. apply list_elem_of_singleton in Hx' as ->. done.
Qed.

Lemma wf_object_delete k o : wf_object o -> wf_object (obj_delete k o).
Proof. unfold wf_object. rewrite obj_keys_delete. apply NoDup_filter. Qed.

End jsobject_facts.

Lemma coherent_empty : coherent [].
Proof. split; [apply NoDup_nil_2|]. intros k s [=]. Qed.

Lemma coherent_set now url content i :
  coherent i -> coherent (obj_set (hashURL url) (summary_of now url content) i).
Proof.
  intros [Hwf Hk]. split; [by apply wf_object_set|].
  intros k s. destruct (decide (hashURL url = k)) as [<-|Hne].
  - rewrite obj_get_set_eq. by intros [= <-].
  - rewrite obj_get_set_ne by done. apply Hk.
Qed.

Lemma coherent_delete k i : coherent i -> coherent (obj_delete k i).
Proof.
  intros [Hwf Hk]. split; [by apply wf_object_delete|].
  intros k' s. destruct (decide (k = k')) as [<-|Hne].
  - by rewrite obj_get_delete_eq.
  - rewrite obj_get_delete_ne by done. apply Hk.
Qed.

(** ** Running a program symbolically *)

Arguments hashURL : simpl never.

(** Case analysis on the next injected fault or file lookup. *)
Ltac fs_case :=
  match goal with
  | |- context [write_fault ?fs !! ?p] =>
      let Hw := fresh "Hw" in destruct (write_fault fs !! p) as [[? [?|]]|] eqn:Hw
  | |- context [rename_fault ?fs !! ?p] =>
      let Hr := fresh "Hr" in destruct (rename_fault fs !! p) as [?|] eqn:Hr
  | |- context [mkdir_fault ?fs !! ?p] =>
      let Hm := fresh "Hm" in destruct (mkdir_fault fs !! p) as [?|] eqn:Hm
  | |- context [read_fault ?fs !! ?p] =>
      let Hr := fresh "Hrd" in destruct (read_fault fs !! p) as [?|] eqn:Hr
  | |- context [match ?f !! ?p with Some _ => _ | None => _ end] =>
      let Hf := fresh "Hf" in destruct (f !! p) as [?|] eqn:Hf
  end.

Ltac fs_unfold :=
  cbn; unfold write_file, write_file_partial, rename_file, read_file, mkdir; cbn;
  rewrite ?lookup_insert_eq.

(** Every path of the execution, fault by fault. *)
Ltac fs_run := repeat (fs_unfold; try fs_case).

(** A membership in an explicit list, element by element. *)
Ltac in_list Hx :=
  repeat first
    [ apply elem_of_cons in Hx as [->|Hx]
    | apply elem_of_app in Hx as [Hx|Hx]
    | apply elem_of_nil in Hx; destruct Hx
    | apply list_elem_of_fmap in Hx as (? & -> & Hx) ].

(** The module variables of an initialized world, spelled out. *)
Ltac init_world w Hinit :=
  let cd := fresh "dir" in let ip := fresh "ip" in
  let ed := fresh "ed" in let idx := fresh "idx" in let fs := fresh "fs" in
  let Hi := fresh in let He := fresh in
  destruct w as [[cd ip ed idx] fs]; destruct Hinit as [Hi He];
  cbn in Hi, He; subst ip ed.

(** No such event in an explicit log. *)
Ltac no_event Hin :=
  repeat (apply elem_of_cons in Hin as [[=]|Hin]); by apply elem_of_nil in Hin.

(** ** Atomic replacement and write order *)

Section writes.
Context `{JSON index_t, JSON metadata}.



Lemma set_events_prefix now url r content w :
  events (cache.set now url r content) w `prefix_of` set_events now url r content (mem w).
Proof.
  destruct w as [m fs]. unfold cache.set, set_events, saveIndex_events.
  fs_run; by eexists.
Qed.

Lemma set_events_complete now url r content w :
  (run (cache.set now url r content) w).1 = Ok tt ->
  events (cache.set now url r content) w = set_events now url r content (mem w).
Proof.
  destruct w as [m fs]. unfold cache.set, set_events, saveIndex_events.
  fs_run; done.
Qed.


Lemma set_index_after_artifacts now url r content w x :
  initialized (mem w) ->
  x ∈ snapshots (cache.set now url r content) w ->
  let m := mem w in
  let h := hashURL url in
  let i' := obj_set h (summary_of now url content) (index m) in
  (index (mem x) = index m /\
   files (disk x) !! indexPath m = files (disk w) !! indexPath m) \/
  (files (disk x) !! content_path m h = Some content /\
   files (disk x) !! meta_path m h = Some (JSON_stringify (metadata_of now url r content)) /\
   index (mem x) = i' /\
   old_or_new w x (indexPath m) (JSON_stringify i')).
Proof.
  intros Hinit. init_world w Hinit.
  unfold cache.set, old_or_new, content_path, meta_path.
  fs_run; intros Hx; in_list Hx; cbn; simpl_map by path_ne; auto 10.
Qed.

Lemma set_artifact_failure now url r content w :
  initialized (mem w) ->
  artifact_write_fails w (hashURL url) ->
  exists e w',
    run (cache.set now url r content) w = (Err e, w') /\
    mem w' = mem w /\
    files (disk w') !! indexPath (mem w) = files (disk w) !! indexPath (mem w).
Proof.
  intros Hinit. init_world w Hinit.
  unfold artifact_write_fails, cache.set, content_path, meta_path; cbn.
  intros Hfail.
  fs_run; try (do 2 eexists; split; [reflexivity|]; cbn; simpl_map by path_ne; done);
    exfalso; destruct Hfail as [[? ?]|[[? ?]|[[? ?]|[? ?]]]]; congruence.
Qed.





(** C3: [set] performs its effects in the order of [set_events]: content
    file, metadata file, index in memory, index file; all of them when it
    returns.  In every world it goes through, either the index in memory
    and the index file are as before the call, or both artifacts hold the
    new content and metadata; and when one of the four artifact operations
    fails, [set] throws with the module variables and the index file as
    they were. *)
Theorem set_write_order now url r content w :
  initialized (mem w) ->
  let m := mem w in
  let h := hashURL url in
  let i' := obj_set h (summary_of now url content) (index m) in
  events (cache.set now url r content) w `prefix_of` set_events now url r content m /\
  ((run (cache.set now url r content) w).1 = Ok tt ->
   events (cache.set now url r content) w = set_events now url r content m) /\
  (forall x, x ∈ snapshots (cache.set now url r content) w ->
     (index (mem x) = index m /\
      files (disk x) !! indexPath m = files (disk w) !! indexPath m) \/
     (files (disk x) !! content_path m h = Some content /\
      files (disk x) !! meta_path m h = Some (JSON_stringify (metadata_of now url r content)) /\
      index (mem x) = i' /\
      old_or_new w x (indexPath m) (JSON_stringify i'))) /\
  (artifact_write_fails w h ->
   exists e w',
     run (cache.set now url r content) w = (Err e, w') /\
     mem w' = m /\
     files (disk w') !! indexPath m = files (disk w) !! indexPath m).
Proof.
  intros Hinit m h i'. split; [apply set_events_prefix|].
  split; [apply set_events_complete|].
  split; [intros x Hx; by apply set_index_after_artifacts|].
  by apply set_artifact_failure.
Qed.

End writes.

(** ** Looking an entry up *)

Section lookups.
Context `{JSON index_t, JSON metadata}.

Lemma healthy_read fs p :
  healthy fs ->
  read_file p fs = match files fs !! p with
                   | Some d => Ok d
                   | None => Err (SystemError ENOENT)
                   end.
Proof. intros (Hr & _). unfold read_file. by rewrite Hr, lookup_empty. Qed.

(** C8: with no record for the key of [url], [get] returns [null] having
    only read the module's variables: no file is read or written and the
    world is the same, whatever the disk holds under that key. *)
Theorem get_miss_frame race url w :
  obj_get (hashURL url) (index (mem w)) = None ->
  run (cache.get race url) w = (Ok None, w) /\
  events (cache.get race url) w = [EvGetMem] /\
  snapshots (cache.get race url) w = [w; w].
Proof. intros Hmiss. unfold cache.get. cbn. by rewrite Hmiss. Qed.

(** C1: a record whose content or metadata file is gone is dropped: on a
    healthy disk [get] returns [null], the record is out of the index in
    memory and the index file holds the new index; and a read failure that
    is not a missing file is thrown to the caller, the world untouched. *)
Theorem get_self_heals race url w s :
  obj_get (hashURL url) (index (mem w)) = Some s ->
  let m := mem w in
  let h := hashURL url in
  (healthy (disk w) ->
   files (disk w) !! meta_path m h = None \/ files (disk w) !! content_path m h = None ->
   exists w',
     run (cache.get race url) w = (Ok None, w') /\
     index (mem w') = obj_delete h (index m) /\
     obj_get h (index (mem w')) = None /\
     files (disk w') !! indexPath m = Some (JSON_stringify (obj_delete h (index m)))) /\
  (forall e,
     run (Promise_all race (meta_path m h) (content_path m h)) w = (Err e, w) ->
     is_ENOENT e = false ->
     run (cache.get race url) w = (Err e, w)).
Proof.
  intros Hrec m h. destruct w as [m0 fs]. cbn in *. subst m h. split.
  - intros (Hrd & Hwr & Hrn & Hmk) Habsent.
    destruct fs as [f d rf wf rnf mf]; cbn in *; subst rf wf rnf mf.
    unfold cache.get, meta_path, content_path in *. cbn. rewrite Hrec.
    destruct Habsent as [Ha|Ha], race;
      repeat (fs_unfold; rewrite ?lookup_empty, ?Ha; try fs_case);
      eexists; (split; [reflexivity|]); cbn;
      rewrite obj_get_delete_eq; simpl_map; done.
  - intros e. unfold cache.get, meta_path, content_path. cbn. rewrite Hrec.
    fs_unfold.
    destruct (read_fault fs !! _) as [f1|], (read_fault fs !! _) as [f2|];
      repeat (fs_unfold; try fs_case); destruct race; cbn;
      intros [= <-] Hcode; try done.
Qed.


(** C9: both files are there and readable, but the metadata file is not
    JSON: [get] throws the [SyntaxError]; it has read the two files and
    written nothing, and the world, the record included, is as before. *)
Theorem get_corrupt_metadata race url w s metaData content :
  obj_get (hashURL url) (index (mem w)) = Some s ->
  let m := mem w in
  let h := hashURL url in
  read_fault (disk w) !! meta_path m h = None ->
  read_fault (disk w) !! content_path m h = None ->
  files (disk w) !! meta_path m h = Some metaData ->
  files (disk w) !! content_path m h = Some content ->
  JSON_parse (A:=metadata) metaData = None ->
  run (cache.get race url) w = (Err SyntaxError, w) /\
  events (cache.get race url) w = [EvGetMem; EvRead (meta_path m h); EvRead (content_path m h)] /\
  obj_get h (index (mem (run (cache.get race url) w).2)) = Some s.
Proof.
  intros Hrec m h. destruct w as [m0 fs]. cbn in *. subst m h.
  unfold cache.get, meta_path, content_path. intros Hrm Hrc Hm Hc Hparse.
  cbn. rewrite Hrec. fs_unfold. rewrite Hrm, Hrc, Hm, Hc. cbn. rewrite Hparse. cbn.
  by rewrite Hrec.
Qed.

Lemma run_snapshot {A : Type} (p : prog A) w : (run p w).2 ∈ snapshots p w.
Proof.
  revert w; induction p as [a|e|X o k IH]; intros w; simpl;
    try (apply list_elem_of_singleton; reflexivity).
  destruct (step o w) as [r w1]. apply elem_of_cons; right.
  apply elem_of_app; right. apply IH.
Qed.

Lemma get_frame race url w k x :
  initialized (mem w) -> k <> hashURL url ->
  x ∈ snapshots (cache.get race url) w ->
  let m := mem w in
  obj_get k (index (mem x)) = obj_get k (index m) /\
  files (disk x) !! content_path m k = files (disk w) !! content_path m k /\
  files (disk x) !! meta_path m k = files (disk w) !! meta_path m k.
Proof.
  intros Hinit Hk. init_world w Hinit.
  unfold cache.get, content_path, meta_path. cbn.
  destruct (obj_get (hashURL url) idx) as [s|] eqn:Hrec.
  2: { cbn. intros Hx; in_list Hx; done. }
  destruct race; fs_run; try destruct (JSON_parse _); fs_run;
    intros Hx; in_list Hx; cbn;
    rewrite ?obj_get_delete_ne by done; simpl_map by path_ne; done.
Qed.

Lemma get_only_removes race url w x k :
  x ∈ snapshots (cache.get race url) w ->
  obj_get k (index (mem x)) = obj_get k (index (mem w)) \/
  (k = hashURL url /\ obj_get k (index (mem x)) = None).
Proof.
  destruct w as [m fs]. unfold cache.get. cbn.
  destruct (obj_get (hashURL url) (index m)) as [s|] eqn:Hrec.
  2: { cbn. intros Hx; in_list Hx; auto. }
  destruct (decide (k = hashURL url)) as [->|Hk];
  destruct race; fs_run; try destruct (JSON_parse _); fs_run;
    intros Hx; in_list Hx; cbn;
    rewrite ?obj_get_delete_ne by done; rewrite ?obj_get_delete_eq; auto.
Qed.

End lookups.

(** ** Frame, round trip, listing *)

Section entries.
Context `{JSON index_t, JSON metadata}.

Lemma set_frame now url r content w k x :
  initialized (mem w) -> k <> hashURL url ->
  x ∈ snapshots (cache.set now url r content) w ->
  let m := mem w in
  obj_get k (index (mem x)) = obj_get k (index m) /\
  files (disk x) !! content_path m k = files (disk w) !! content_path m k /\
  files (disk x) !! meta_path m k = files (disk w) !! meta_path m k.
Proof.
  intros Hinit Hk. init_world w Hinit.
  unfold cache.set, content_path, meta_path.
  fs_run; intros Hx; in_list Hx; cbn;
    rewrite ?obj_get_set_ne by done; simpl_map by path_ne; done.
Qed.

(** C10: for a key other than that of [url], the record and the two
    artifact files are the same in every world [set] and [get] go through
    and in the world they end in; and [get] changes no record but, at
    most, the one of [url], which it can only remove. *)
Theorem per_key_frame now race url r content w k :
  initialized (mem w) -> k <> hashURL url ->
  let m := mem w in
  let same x :=
    obj_get k (index (mem x)) = obj_get k (index m) /\
    files (disk x) !! content_path m k = files (disk w) !! content_path m k /\
    files (disk x) !! meta_path m k = files (disk w) !! meta_path m k in
  (forall x, x ∈ snapshots (cache.set now url r content) w -> same x) /\
  same (run (cache.set now url r content) w).2 /\
  (forall x, x ∈ snapshots (cache.get race url) w -> same x) /\
  same (run (cache.get race url) w).2 /\
  (forall k',
     let i' := index (mem (run (cache.get race url) w).2) in
     obj_get k' i' = obj_get k' (index m) \/
     (k' = hashURL url /\ obj_get k' i' = None)).
Proof.
  intros Hinit Hk m same.
  assert (Hset : forall x, x ∈ snapshots (cache.set now url r content) w -> same x)
    by (intros x Hx; by apply (set_frame now url r content w k x)).
  assert (Hget : forall x, x ∈ snapshots (cache.get race url) w -> same x)
    by (intros x Hx; by apply (get_frame race url w k x)).
  split; [exact Hset|]. split; [apply Hset, run_snapshot|].
  split; [exact Hget|]. split; [apply Hget, run_snapshot|].
  intros k' i'. apply (get_only_removes race url w), run_snapshot.
Qed.

Lemma set_succeeds now url r content w :
  initialized (mem w) -> healthy (disk w) ->
  let m := mem w in
  let h := hashURL url in
  exists w1,
    run (cache.set now url r content) w = (Ok tt, w1) /\
    mem w1 = with_index (obj_set h (summary_of now url content) (index m)) m /\
    healthy (disk w1) /\
    files (disk w1) !! content_path m h = Some content /\
    files (disk w1) !! meta_path m h = Some (JSON_stringify (metadata_of now url r content)) /\
    files (disk w1) !! indexPath m =
      Some (JSON_stringify (obj_set h (summary_of now url content) (index m))).
Proof.
  intros Hinit (Hrd & Hwr & Hrn & Hmk). init_world w Hinit.
  destruct fs as [f d rf wf rnf mf]; cbn in *; subst rf wf rnf mf.
  unfold cache.set, content_path, meta_path.
  repeat (fs_unfold; rewrite ?lookup_empty).
  eexists. split; [reflexivity|]. cbn. unfold healthy. cbn.
  simpl_map by path_ne. done.
Qed.

Lemma get_hit race url w s md content :
  obj_get (hashURL url) (index (mem w)) = Some s ->
  healthy (disk w) ->
  let m := mem w in
  let h := hashURL url in
  files (disk w) !! content_path m h = Some content ->
  (exists doc, files (disk w) !! meta_path m h = Some doc /\ JSON_parse doc = Some md) ->
  run (cache.get race url) w = (Ok (Some (md, content)), w).
Proof.
  intros Hrec (Hrd & _) m h Hc (doc & Hm & Hparse). destruct w as [m0 fs].
  cbn in *. subst m h. unfold cache.get, content_path, meta_path in *.
  cbn. rewrite Hrec. fs_unfold. rewrite Hrd, !lookup_empty, Hm, Hc. cbn.
  by rewrite Hparse.
Qed.

(** C4: on a healthy disk, [get] after [set] returns the content that was
    stored, byte for byte, and the metadata document that was stored, whose
    content type is the descriptor's and whose byte size is the content's
    length; after a second [set] of the same URL, [get] returns the second
    content and metadata. *)
Theorem set_get_round_trip race now1 now2 url r1 r2 content1 content2 w :
  initialized (mem w) -> healthy (disk w) ->
  let md1 := metadata_of now1 url r1 content1 in
  let md2 := metadata_of now2 url r2 content2 in
  JSON_parse (JSON_stringify md1) = Some md1 ->
  JSON_parse (JSON_stringify md2) = Some md2 ->
  (exists w1,
     run (cache.set now1 url r1 content1) w = (Ok tt, w1) /\
     run (cache.get race url) w1 = (Ok (Some (md1, content1)), w1) /\
     m_contentType md1 = r_contentType r1 /\
     m_byteSize md1 = String.length content1) /\
  (exists w1 w2,
     run (cache.set now1 url r1 content1) w = (Ok tt, w1) /\
     run (cache.set now2 url r2 content2) w1 = (Ok tt, w2) /\
     run (cache.get race url) w2 = (Ok (Some (md2, content2)), w2)).
Proof.
  intros Hinit Hh md1 md2 Hp1 Hp2.
  destruct (set_succeeds now1 url r1 content1 w Hinit Hh)
    as (w1 & Hrun1 & Hmem1 & Hh1 & Hc1 & Hm1 & _).
  assert (Hinit1 : initialized (mem w1)) by (rewrite Hmem1; exact Hinit).
  split.
  - exists w1. split; [exact Hrun1|]. split; [|done].
    eapply get_hit; [| exact Hh1 | |].
    + rewrite Hmem1. cbn. apply obj_get_set_eq.
    + rewrite Hmem1. exact Hc1.
    + rewrite Hmem1. eauto.
  - destruct (set_succeeds now2 url r2 content2 w1 Hinit1 Hh1)
      as (w2 & Hrun2 & Hmem2 & Hh2 & Hc2 & Hm2 & _).
    exists w1, w2. split; [exact Hrun1|]. split; [exact Hrun2|].
    eapply get_hit; [| exact Hh2 | |].
    + rewrite Hmem2. cbn. apply obj_get_set_eq.
    + rewrite Hmem2. exact Hc2.
    + rewrite Hmem2. eauto.
Qed.

End entries.

(** ** Start-up *)

Section startup.
Context `{JSON index_t, JSON metadata}.
Variables (dir : string) (w : world).
Let entries := path_join dir "entries".
Let indexFile := path_join dir "index.json".
Let m0 := Memory dir indexFile entries (index (mem w)).
Let fs1 := with_dirs ({[entries]} ∪ dirs (disk w)) (disk w).
Let out := run (cache.initializeCache dir) w.
Let evs := events (cache.initializeCache dir) w.
Let opening := [EvGetMem; EvPutMem m0; EvMkdir entries].

Lemma read_file_ENOENT p fs :
  read_file p fs = Err (SystemError ENOENT) <->
  read_fault fs !! p = None /\ files fs !! p = None.
Proof.
  unfold read_file. destruct (read_fault fs !! p), (files fs !! p);
    split; intros Hx; try done; try (by destruct Hx); by inversion Hx.
Qed.

Lemma read_file_system_error p fs : read_file p fs <> Err SyntaxError.
Proof. unfold read_file. by destruct (read_fault fs !! p), (files fs !! p). Qed.

Lemma init_mkdir_fails f :
  mkdir_fault (disk w) !! entries = Some f ->
  out = (Err (SystemError (Efault f)), World m0 (disk w)) /\ evs = opening.
Proof.
  subst out evs opening m0 entries. destruct w as [m fs]. cbn.
  unfold cache.initializeCache, mkdir. cbn. by intros ->.
Qed.

Lemma init_loaded data i :
  mkdir_fault (disk w) !! entries = None ->
  read_file indexFile (disk w) = Ok data -> JSON_parse data = Some i ->
  out = (Ok tt, World (with_index i m0) fs1) /\
  evs = opening ++ [EvRead indexFile; EvGetMem; EvPutMem (with_index i m0)].
Proof.
  subst out evs opening fs1 m0 entries indexFile. destruct w as [m fs]. cbn.
  unfold cache.initializeCache, mkdir. cbn. intros -> Hread Hparse. cbn.
  change (read_file ?p (with_dirs ?d fs)) with (read_file p fs).
  rewrite Hread. cbn. by rewrite Hparse.
Qed.

Lemma init_corrupt data :
  mkdir_fault (disk w) !! entries = None ->
  read_file indexFile (disk w) = Ok data -> JSON_parse (A:=index_t) data = None ->
  out = (Err SyntaxError, World m0 fs1) /\ evs = opening ++ [EvRead indexFile].
Proof.
  subst out evs opening fs1 m0 entries indexFile. destruct w as [m fs]. cbn.
  unfold cache.initializeCache, mkdir. cbn. intros -> Hread Hparse. cbn.
  change (read_file ?p (with_dirs ?d fs)) with (read_file p fs).
  rewrite Hread. cbn. by rewrite Hparse.
Qed.

Lemma init_unreadable f :
  mkdir_fault (disk w) !! entries = None ->
  read_file indexFile (disk w) = Err (SystemError (Efault f)) ->
  out = (Err (SystemError (Efault f)), World m0 fs1) /\ evs = opening ++ [EvRead indexFile].
Proof.
  subst out evs opening fs1 m0 entries indexFile. destruct w as [m fs]. cbn.
  unfold cache.initializeCache, mkdir. cbn. intros -> Hread. cbn.
  change (read_file ?p (with_dirs ?d fs)) with (read_file p fs).
  by rewrite Hread.
Qed.

Lemma init_absent :
  mkdir_fault (disk w) !! entries = None ->
  read_file indexFile (disk w) = Err (SystemError ENOENT) ->
  let w1 := World (with_index [] m0) fs1 in
  out = run cache.saveIndex w1 /\
  evs = opening ++ [EvRead indexFile; EvGetMem; EvPutMem (with_index [] m0)]
        ++ events cache.saveIndex w1.
Proof.
  subst out evs opening fs1 m0 entries indexFile. destruct w as [m fs]. cbn.
  unfold cache.initializeCache, mkdir. cbn. intros -> Hread. cbn.
  change (read_file ?p (with_dirs ?d fs)) with (read_file p fs).
  by rewrite Hread.
Qed.

Lemma saveIndex_succeeds w1 :
  write_fault (disk w1) !! (indexPath (mem w1) +:+ ".tmp") = None ->
  rename_fault (disk w1) !! indexPath (mem w1) = None ->
  exists fs',
    run cache.saveIndex w1 = (Ok tt, World (mem w1) fs') /\
    dirs fs' = dirs (disk w1) /\
    files fs' !! indexPath (mem w1) = Some (JSON_stringify (index (mem w1))).
Proof.
  destruct w1 as [m fs]. cbn. intros Hw Hr. unfold cache.saveIndex.
  fs_unfold. rewrite Hw. fs_unfold. rewrite Hr. fs_unfold.
  eexists. split; [reflexivity|]. cbn. by simpl_map.
Qed.

Lemma saveIndex_writes w1 : exists d, EvWrite (indexPath (mem w1) +:+ ".tmp") d ∈ events cache.saveIndex w1.
Proof.
  destruct w1 as [m fs]. unfold cache.saveIndex.
  fs_run; eexists; apply elem_of_cons; right; apply elem_of_cons; by left.
Qed.

Lemma saveIndex_mem w1 : mem (run cache.saveIndex w1).2 = mem w1 /\ dirs (disk (run cache.saveIndex w1).2) = dirs (disk w1).
Proof. destruct w1 as [m fs]. unfold cache.saveIndex. fs_run; done. Qed.


(** C5: [initializeCache] sets the paths and creates the entries directory
    first; then, if the index file is absent it takes the empty index and
    runs [saveIndex] on it, which leaves the file holding the empty index;
    if the file is read and parses, its index is taken and nothing is
    written; if it does not parse, or cannot be read for another reason
    than absence, or the directory cannot be made, the error is thrown,
    nothing is written and the index is not reset.  A write happens exactly
    when the directory was made and the file is absent. *)
Theorem initializeCache_loads :
  (exists rest, evs = opening ++ rest) /\
  (forall f, mkdir_fault (disk w) !! entries = Some f ->
     out = (Err (SystemError (Efault f)), World m0 (disk w)) /\ evs = opening) /\
  (mkdir_fault (disk w) !! entries = None ->
     (out.1 = Ok tt -> entries ∈ dirs (disk out.2) /\ initialized (mem out.2)) /\
     (read_file indexFile (disk w) = Err (SystemError ENOENT) ->
        out = run cache.saveIndex (World (with_index [] m0) fs1) /\
        (write_fault (disk w) !! (indexFile +:+ ".tmp") = None ->
         rename_fault (disk w) !! indexFile = None ->
         out.1 = Ok tt /\ index (mem out.2) = [] /\
         files (disk out.2) !! indexFile = Some (JSON_stringify ([] : index_t)))) /\
     (forall data i,
        read_file indexFile (disk w) = Ok data -> JSON_parse data = Some i ->
        out = (Ok tt, World (with_index i m0) fs1)) /\
     (forall data,
        read_file indexFile (disk w) = Ok data -> JSON_parse (A:=index_t) data = None ->
        out = (Err SyntaxError, World m0 fs1)) /\
     (forall f,
        read_file indexFile (disk w) = Err (SystemError (Efault f)) ->
        out = (Err (SystemError (Efault f)), World m0 fs1))) /\
  ((exists p d, EvWrite p d ∈ evs) <->
   mkdir_fault (disk w) !! entries = None /\
   read_file indexFile (disk w) = Err (SystemError ENOENT)).
Proof.
  assert (Hnowrite : forall l, (forall p d, EvWrite p d ∉ l) ->
            evs = opening ++ l -> ~ exists p d, EvWrite p d ∈ evs).
  { intros l Hl -> (p & d & Hin). apply elem_of_app in Hin as [Hin|Hin].
    - subst opening. no_event Hin.
    - by apply Hl in Hin. }
  destruct (mkdir_fault (disk w) !! entries) as [fm|] eqn:Hmk.
  { destruct (init_mkdir_fails fm Hmk) as [Hout Hev].
    split; [exists []; by rewrite app_nil_r|]. split; [by intros f [= <-]|].
    split; [done|]. split; [|by intros [? _]].
    intros Hw. exfalso. apply (Hnowrite []); [|by rewrite app_nil_r|done].
    intros p d Hin. by apply not_elem_of_nil in Hin. }
  destruct (read_file indexFile (disk w)) as [data|[[|f]|]] eqn:Hread.
  - destruct (JSON_parse (A:=index_t) data) as [i|] eqn:Hparse.
    + destruct (init_loaded data i Hmk Hread Hparse) as [Hout Hev].
      split; [by eexists|]. split; [done|]. split.
      * split; [intros _; rewrite Hout; cbn; split; [set_solver|done]|].
        split; [done|]. split; [by intros ?? [= <-]; rewrite Hparse; intros [= <-]|].
        split; [by intros ? [= <-]; rewrite Hparse|done].
      * split; [|by intros [_ ?]]. intros Hw. exfalso.
        eapply Hnowrite; [|exact Hev|exact Hw]. intros p d Hin. no_event Hin.
    + destruct (init_corrupt data Hmk Hread Hparse) as [Hout Hev].
      split; [by eexists|]. split; [done|]. split.
      * split; [by rewrite Hout|].
        split; [done|]. split; [by intros ?? [= <-]; rewrite Hparse|].
        split; [by intros ? [= <-]|done].
      * split; [|by intros [_ ?]]. intros Hw. exfalso.
        eapply Hnowrite; [|exact Hev|exact Hw]. intros p d Hin. no_event Hin.
  - destruct (init_absent Hmk Hread) as [Hout Hev].
    split; [by eexists|]. split; [done|]. split.
    + split.
      { intros _. rewrite Hout.
        destruct (saveIndex_mem (World (with_index [] m0) fs1)) as [-> ->].
        cbn. split; [set_solver|done]. }
      split; [|done]. intros _. split; [exact Hout|]. intros Hw Hr.
      destruct (saveIndex_succeeds (World (with_index [] m0) fs1) Hw Hr)
        as (fs' & Hrun & _ & Hfile).
      rewrite Hout, Hrun. done.
    + split; [done|]. intros _.
      destruct (saveIndex_writes (World (with_index [] m0) fs1)) as [d Hd].
      exists (indexFile +:+ ".tmp"), d. rewrite Hev.
      apply elem_of_app; right. apply elem_of_app; right. exact Hd.
  - destruct (init_unreadable f Hmk Hread) as [Hout Hev].
    split; [by eexists|]. split; [done|]. split.
    + split; [by rewrite Hout|]. split; [done|]. split; [done|].
      split; [done|]. by intros ? [= <-].
    + split; [|by intros [_ ?]]. intros Hw. exfalso.
      eapply Hnowrite; [|exact Hev|exact Hw]. intros p d Hin. no_event Hin.
  - by apply read_file_system_error in Hread.
Qed.

End startup.

(** ** Listing *)

Section listing.
Context `{JSON index_t, JSON metadata}.

Lemma get_result race url w :
  let w' := (run (cache.get race url) w).2 in
  (index (mem w') = index (mem w) \/
   index (mem w') = obj_delete (hashURL url) (index (mem w))) /\
  (initialized (mem w) -> initialized (mem w')) /\
  (healthy (disk w) -> healthy (disk w')).
Proof.
  destruct w as [m fs]. unfold cache.get. cbn.
  destruct (obj_get (hashURL url) (index m)) as [s|] eqn:Hrec; [|cbn; auto].
  destruct race; fs_run; try destruct (JSON_parse _); fs_run; auto.
Qed.

Lemma last_set_snoc url qs q :
  last_set url (qs ++ [q]) =
  match q with
  | SetReq _ u _ content => if decide (u = url) then Some content else last_set url qs
  | GetReq _ _ => last_set url qs
  end.
Proof. unfold last_set. by rewrite foldl_app. Qed.

Lemma tracks_step q qs w :
  initialized (mem w) -> healthy (disk w) -> tracks qs (index (mem w)) ->
  let w' := serve_one q w in
  initialized (mem w') /\ healthy (disk w') /\ tracks (qs ++ [q]) (index (mem w')).
Proof.
  intros Hinit Hh [Hco Htr]. destruct q as [now url r content|race url];
    unfold serve_one; cbv zeta.
  - destruct (set_succeeds now url r content w Hinit Hh) as (w1 & -> & Hmem & Hh1 & _).
    cbn [snd]. rewrite Hmem. cbn. split; [exact Hinit|]. split; [exact Hh1|].
    split; [by apply coherent_set|].
    intros k s. rewrite last_set_snoc.
    destruct (decide (hashURL url = k)) as [<-|Hk].
    + rewrite obj_get_set_eq. intros [= <-]. cbn. rewrite decide_True by done. eauto.
    + rewrite obj_get_set_ne by done. intros Hs.
      rewrite decide_False; [by apply (Htr k)|].
      intros Hu. apply Hk. destruct Hco as [_ Hkey]. rewrite (Hkey k s Hs). by rewrite Hu.
  - destruct (get_result race url w) as (Hidx & Hi & Hhe).
    split; [by apply Hi|]. split; [by apply Hhe|].
    assert (Hsub : forall k s, obj_get k (index (mem (run (cache.get race url) w).2)) = Some s ->
                     obj_get k (index (mem w)) = Some s).
    { intros k s. destruct Hidx as [-> | ->]; [done|].
      destruct (decide (hashURL url = k)) as [<-|Hk].
      - by rewrite obj_get_delete_eq.
      - by rewrite obj_get_delete_ne. }
    split.
    + destruct Hidx as [-> | ->]; [done|by apply coherent_delete].
    + intros k s Hs. rewrite last_set_snoc. apply (Htr k), Hsub, Hs.
Qed.

Lemma tracks_serve qs hist w :
  initialized (mem w) -> healthy (disk w) -> tracks hist (index (mem w)) ->
  tracks (hist ++ qs) (index (mem (serve qs w))).
Proof.
  revert hist w; induction qs as [|q qs IH]; intros hist w Hinit Hh Htr.
  - by rewrite app_nil_r.
  - destruct (tracks_step q hist w Hinit Hh Htr) as (Hi & Hhe & Ht).
    change (serve (q :: qs) w) with (serve qs (serve_one q w)).
    rewrite (assoc_L _ hist [q] qs : hist ++ q :: qs = (hist ++ [q]) ++ qs).
    by apply IH.
Qed.

Lemma coherent_public_NoDup i : coherent i -> NoDup (map public (obj_values i)).
Proof.
  intros [Hwf Hkey]. unfold obj_values. rewrite map_map.
  apply NoDup_fmap_2_strong.
  - intros [k1 s1] [k2 s2] H1 H2 Hpub. cbn in Hpub.
    apply (elem_of_obj_get _ _ _ Hwf) in H1, H2.
    assert (k1 = k2) as <-.
    { rewrite (Hkey _ _ H1), (Hkey _ _ H2). by injection Hpub as -> _. }
    congruence.
  - by apply (NoDup_fmap_1 fst).
Qed.

(** C6: [list] returns the index's records in the index's order, each as
    [{url, byteSize}], one per key, having touched no file; the records of
    an index built by the cache are pairwise different; and after any
    history of [set] and [get] calls on a healthy disk, from an empty
    index, the byte size listed for a URL is the length of the payload of
    the most recent [set] for that URL. *)
Theorem list_projection w :
  let i := index (mem w) in
  let items := map public (obj_values i) in
  run cache.list w = (Ok items, w) /\
  events cache.list w = [EvGetMem] /\
  length items = length (obj_keys i) /\
  (forall k s, obj_get k i = Some s -> public s ∈ items) /\
  (coherent i -> NoDup (obj_keys i) /\ NoDup items) /\
  (forall w0 qs,
     initialized (mem w0) -> healthy (disk w0) -> index (mem w0) = [] ->
     w = serve qs w0 ->
     coherent i /\
     forall it, it ∈ items ->
       exists content, last_set (l_url it) qs = Some content /\
                       l_byteSize it = String.length content).
Proof.
  intros i items. split; [reflexivity|]. split; [reflexivity|].
  split; [unfold items, obj_values, obj_keys; by rewrite !length_map|].
  split.
  { intros k s Hs. apply obj_get_elem_of in Hs.
    unfold items, obj_values. rewrite map_map.
    by apply (list_elem_of_fmap_2 (fun kv => public kv.2) _ (k, s)). }
  split; [intros Hco; split; [apply Hco|by apply coherent_public_NoDup]|].
  intros w0 qs Hinit Hh Hempty ->.
  assert (Htr : tracks ([] ++ qs) (index (mem (serve qs w0)))).
  { apply tracks_serve; [done..|]. rewrite Hempty. split; [apply coherent_empty|done]. }
  destruct Htr as [Hco Htr]. split; [exact Hco|].
  intros it Hit. unfold items, obj_values in Hit. rewrite map_map in Hit.
  apply list_elem_of_fmap in Hit as ([k s] & -> & Hks).
  apply (elem_of_obj_get _ _ _ (proj1 Hco)) in Hks. exact (Htr k s Hks).
Qed.

End listing.

(** ** The theorems at sample worlds *)

Section samples.
Import Sample.
#[local] Existing Instances json_index json_metadata.

Lemma healthy_disk_of f : healthy (disk_of f).
Proof. by repeat split. Qed.

Lemma initialized_vars i : initialized (vars i).
Proof. by split. Qed.

(** A stale record is repaired; an unreadable content file is reported. *)
Lemma get_self_heals_witness :
  (exists w', run (cache.get true url_a) stale = (Ok None, w') /\
              index (mem w') = [] /\
              files (disk w') !! path_join dir "index.json" = Some "{}") /\
  run (cache.get false url_a) locked = (Err (SystemError (Efault EACCES)), locked).
Proof.
  destruct (get_self_heals true url_a stale (Summary url_a 5 stamp)) as [Hheal _].
  { vm_compute. reflexivity. }
  destruct (get_self_heals false url_a locked (Summary url_a 5 stamp)) as [_ Hthrow].
  { vm_compute. reflexivity. }
  split.
  - destruct Hheal as (w' & Hrun & Hidx & _ & Hfile).
    + apply healthy_disk_of.
    + left. vm_compute. reflexivity.
    + exists w'. split; [exact Hrun|]. split.
      * rewrite Hidx. vm_compute. reflexivity.
      * refine (eq_trans Hfile _). vm_compute. reflexivity.
  - apply Hthrow; vm_compute; reflexivity.
Defined.


(** A full run performs all of [set_events]; a refused rename of the
    metadata file leaves the index alone. *)
Lemma set_write_order_witness :
  events (cache.set stamp url_a html "hello") fresh
    = set_events stamp url_a html "hello" (vars []) /\
  exists e w',
    run (cache.set stamp url_a html "hello") stuck = (Err e, w') /\
    mem w' = vars [] /\
    files (disk w') !! path_join dir "index.json" = None.
Proof.
  destruct (set_write_order stamp url_a html "hello" fresh (initialized_vars []))
    as (_ & Hall & _ & _).
  destruct (set_write_order stamp url_a html "hello" stuck (initialized_vars []))
    as (_ & _ & _ & Hfail).
  split.
  - apply Hall. vm_compute. reflexivity.
  - destruct Hfail as (e & w' & Hrun & Hmem & Hfile).
    + right. right. right. exists EIO. vm_compute. reflexivity.
    + exists e, w'. split; [exact Hrun|]. split; [exact Hmem|]. exact Hfile.
Defined.

(** Two payloads stored under one URL: the second is read back. *)
Lemma set_get_round_trip_witness :
  exists w1 w2,
    run (cache.set stamp url_a html "hello") fresh = (Ok tt, w1) /\
    run (cache.set stamp url_a plain "bye") w1 = (Ok tt, w2) /\
    run (cache.get true url_a) w2
      = (Ok (Some (metadata_of stamp url_a plain "bye", "bye")), w2).
Proof.
  apply (set_get_round_trip true stamp stamp url_a html plain "hello" "bye" fresh).
  - apply initialized_vars.
  - apply healthy_disk_of.
  - vm_compute. reflexivity.
  - vm_compute. reflexivity.
Defined.

(** Artifacts without a record are not looked at. *)
Lemma get_miss_frame_witness :
  files (disk orphan) !! content_path (mem orphan) (hashURL url_a) = Some "hello" /\
  run (cache.get true url_a) orphan = (Ok None, orphan) /\
  events (cache.get true url_a) orphan = [EvGetMem].
Proof.
  split; [vm_compute; reflexivity|].
  destruct (get_miss_frame true url_a orphan) as (Hrun & Hev & _).
  - vm_compute. reflexivity.
  - split; [exact Hrun|exact Hev].
Defined.

(** A metadata file that is not JSON makes [get] throw. *)
Lemma get_corrupt_metadata_witness :
  run (cache.get true url_a) torn = (Err SyntaxError, torn).
Proof.
  apply (get_corrupt_metadata true url_a torn (Summary url_a 5 stamp)
           "{ url: https://a.ex" "hello"); vm_compute; reflexivity.
Defined.

(** Storing [url_a] again leaves the record and content of [url_b]. *)
Lemma per_key_frame_witness :
  let w := serve three fresh in
  let x := (run (cache.set stamp url_a plain "changed") w).2 in
  obj_get (hashURL url_b) (index (mem x)) = Some (Summary url_b 12 stamp) /\
  files (disk x) !! content_path (mem w) (hashURL url_b) = Some "hello, world".
Proof.
  intros w x.
  destruct (per_key_frame stamp true url_a plain "changed" w (hashURL url_b))
    as (_ & (Hrec & Hcontent & _) & _).
  - vm_compute. split; reflexivity.
  - intros E. vm_compute in E. discriminate E.
  - split.
    + refine (eq_trans Hrec _). vm_compute. reflexivity.
    + refine (eq_trans Hcontent _). vm_compute. reflexivity.
Defined.

(** ** The cache at work *)

(** The listing of the specification: three URLs of 5, 12 and 0 bytes. *)
Example list_three :
  (run cache.list (serve three fresh)).1
  = Ok [Listing url_a 5; Listing url_b 12; Listing url_c 0].
Proof. vm_compute. reflexivity. Qed.

(** Start-up on an empty directory leaves [index.json] holding [{}]. *)
Example first_boot :
  let w := (run (cache.initializeCache dir) (boot None)).2 in
  mem w = vars [] /\
  files (disk w) !! path_join dir "index.json" = Some "{}" /\
  path_join dir "entries" ∈ dirs (disk w).
Proof. vm_compute. split; [reflexivity|]. split; [reflexivity|]. set_solver. Qed.

(** Start-up on a cut index file throws and writes nothing. *)
Example corrupt_boot :
  run (cache.initializeCache dir) (boot (Some "{ 38612c: { url: "))
  = (Err SyntaxError,
     World (vars []) (with_dirs {[path_join dir "entries"]}
                        (disk (boot (Some "{ 38612c: { url: "))))).
Proof. vm_compute. reflexivity. Qed.

(** After a restart on the same directory the index is the one saved and
    [get] answers from the files. *)
Example restart :
  let before := serve three fresh in
  let w := (run (cache.initializeCache dir)
                (World (Memory "" "" "" []) (disk before))).2 in
  mem w = mem before /\
  (run (cache.get true url_b) w).1
  = Ok (Some (metadata_of stamp url_b plain "hello, world", "hello, world")).
Proof. vm_compute. split; reflexivity. Qed.

(** A stale record is gone from the listing after one [get]. *)
Example healed_listing :
  (run cache.list (run (cache.get true url_a) stale).2).1 = Ok [].
Proof. vm_compute. reflexivity. Qed.

(** One file missing and the other unreadable: which rejection
    [Promise.all] reports decides between repair and failure. *)
Example missing_and_unreadable :
  (run (cache.get true url_a) mixed).1 = Ok None /\
  (run (cache.get false url_a) mixed).1 = Err (SystemError (Efault EACCES)).
Proof. vm_compute. split; reflexivity. Qed.

End samples.

(** ** What the cache operations touch *)

(** The disequalities behind a non-membership in an explicit list. *)
Ltac not_in Hp :=
  repeat (apply not_elem_of_cons in Hp as [? Hp]); clear Hp.

Section footprint.
Context `{JSON index_t, JSON metadata}.

(** X1: at every moment of a [set], the three path variables and the
    directories are what they were, and so is every file other than the
    two artifacts of the URL, the index file and their temporary files. *)
Theorem set_footprint now url r content w x p :
  x ∈ snapshots (cache.set now url r content) w ->
  same_vars w x /\ dirs (disk x) = dirs (disk w) /\
  (p ∉ entry_paths (mem w) (hashURL url) ++ index_paths (mem w) ->
   files (disk x) !! p = files (disk w) !! p).
Proof.
  destruct w as [m fs]. unfold cache.set, same_vars, entry_paths, index_paths,
    content_path, meta_path.
  fs_run; intros Hx; in_list Hx; cbn; (split; [done|]); (split; [done|]);
    intros Hp; not_in Hp; simpl_map; done.
Qed.

(** X2: at every moment of a [get], the three path variables and the
    directories are what they were, and so is every file other than the
    index file and its temporary file: [get] writes no artifact and
    removes none. *)
Theorem get_footprint race url w x p :
  x ∈ snapshots (cache.get race url) w ->
  same_vars w x /\ dirs (disk x) = dirs (disk w) /\
  (p ∉ index_paths (mem w) -> files (disk x) !! p = files (disk w) !! p).
Proof.
  destruct w as [m fs]. unfold cache.get, same_vars, index_paths. cbn.
  destruct (obj_get (hashURL url) (index m)) as [s|] eqn:Hrec.
  2: { cbn. intros Hx; in_list Hx; done. }
  destruct race; fs_run; try destruct (JSON_parse _); fs_run;
    intros Hx; in_list Hx; cbn; (split; [done|]); (split; [done|]);
    intros Hp; not_in Hp; simpl_map; done.
Qed.


End footprint.

(** ** What [get] answers *)

Section answers.
Context `{JSON index_t, JSON metadata}.

(** X4: when [get] returns an entry, the URL has a record, the content is
    what the content file holds, the metadata is what the metadata file
    parses to, nothing has changed, and the only effects were the two
    reads. *)
Theorem get_hit_sound race url w md content w' :
  run (cache.get race url) w = (Ok (Some (md, content)), w') ->
  let m := mem w in
  let h := hashURL url in
  w' = w /\
  is_Some (obj_get h (index m)) /\
  files (disk w) !! content_path m h = Some content /\
  (exists doc, files (disk w) !! meta_path m h = Some doc /\ JSON_parse doc = Some md) /\
  events (cache.get race url) w = [EvGetMem; EvRead (meta_path m h); EvRead (content_path m h)].
Proof.
  destruct w as [m fs]. unfold cache.get, content_path, meta_path. cbn.
  destruct (obj_get (hashURL url) (index m)) as [s|] eqn:Hrec; [|by cbn].
  destruct race; fs_run; try destruct (JSON_parse _) eqn:Hparse; fs_run;
    intros [= <- <- <-]; eauto 10.
Qed.

Lemma get_null_result race url w w' :
  run (cache.get race url) w = (Ok None, w') ->
  let h := hashURL url in
  obj_get h (index (mem w')) = None /\
  (w' = w \/ index (mem w') = obj_delete h (index (mem w))).
Proof.
  destruct w as [m fs]. unfold cache.get. cbn.
  destruct (obj_get (hashURL url) (index m)) as [s|] eqn:Hrec.
  2: { cbn. intros [= <-]. cbn. auto. }
  destruct race; fs_run; try destruct (JSON_parse _) eqn:Hparse; fs_run;
    intros [= <-]; cbn; rewrite obj_get_delete_eq; auto.
Qed.

Lemma coherent_no_url url i :
  coherent i -> obj_get (hashURL url) i = None ->
  forall it, it ∈ map public (obj_values i) -> l_url it <> url.
Proof.
  intros [Hwf Hkey] Hnone it Hit Hurl.
  unfold obj_values in Hit. rewrite map_map in Hit.
  apply list_elem_of_fmap in Hit as ([k s] & -> & Hks).
  apply (elem_of_obj_get _ _ _ Hwf) in Hks. cbn in Hurl.
  pose proof (Hkey k s Hks) as Hk. rewrite Hurl in Hk. congruence.
Qed.

(** X5: when [get] returns null, the URL has no record afterwards, and on
    an index built by the cache the listing does not name the URL. *)
Theorem get_null_unlisted race url w w' :
  coherent (index (mem w)) ->
  run (cache.get race url) w = (Ok None, w') ->
  obj_get (hashURL url) (index (mem w')) = None /\
  exists items,
    run cache.list w' = (Ok items, w') /\
    forall it, it ∈ items -> l_url it <> url.
Proof.
  intros Hco Hrun. destruct (get_null_result race url w w' Hrun) as [Hnone Hidx].
  split; [exact Hnone|]. eexists. split; [reflexivity|].
  apply coherent_no_url; [|exact Hnone].
  destruct Hidx as [-> | ->]; [exact Hco|by apply coherent_delete].
Qed.

End answers.

(** ** Failures half-way *)

Section halfway.
Context `{JSON index_t, JSON metadata}.

(** X6: when both artifacts of a [set] are written and the index cannot
    be saved, [set] throws, yet the record is in the index in memory and
    the two artifacts are on disk; the index file is what it was. *)
Theorem set_persist_failure now url r content w :
  initialized (mem w) ->
  artifacts_writable w (hashURL url) ->
  index_write_fails w ->
  let m := mem w in
  let h := hashURL url in
  exists e w',
    run (cache.set now url r content) w = (Err e, w') /\
    obj_get h (index (mem w')) = Some (summary_of now url content) /\
    files (disk w') !! indexPath m = files (disk w) !! indexPath m /\
    files (disk w') !! content_path m h = Some content /\
    files (disk w') !! meta_path m h = Some (JSON_stringify (metadata_of now url r content)).
Proof.
  intros Hinit. init_world w Hinit.
  unfold artifacts_writable, index_write_fails, cache.set, content_path, meta_path; cbn.
  intros (Hcw & Hcr & Hmw & Hmr) Hfail.
  fs_unfold. rewrite Hcw. fs_unfold. rewrite Hcr. fs_unfold. rewrite Hmw.
  fs_unfold. rewrite Hmr.
  fs_run; try (do 2 eexists; split; [reflexivity|]; cbn;
               rewrite obj_get_set_eq; simpl_map by path_ne; done).
  exfalso. destruct Hfail as [[? ?]|[? ?]]; congruence.
Qed.

(** X7: when [get] finds both files of a record missing and the index
    cannot be saved, [get] throws instead of returning null; the record is
    gone from the index in memory and the index file still has it. *)
Theorem get_heal_persist_failure race url w s :
  obj_get (hashURL url) (index (mem w)) = Some s ->
  let m := mem w in
  let h := hashURL url in
  read_file (meta_path m h) (disk w) = Err (SystemError ENOENT) ->
  read_file (content_path m h) (disk w) = Err (SystemError ENOENT) ->
  index_write_fails w ->
  exists e w',
    run (cache.get race url) w = (Err e, w') /\
    index (mem w') = obj_delete h (index m) /\
    files (disk w') !! indexPath m = files (disk w) !! indexPath m.
Proof.
  intros Hrec m h. destruct w as [m0 fs]. cbn in *. subst m h.
  unfold index_write_fails, cache.get, content_path, meta_path; cbn.
  intros Hm Hc Hfail. rewrite Hrec. cbn. rewrite Hm, Hc.
  destruct race; fs_run;
    try (do 2 eexists; split; [reflexivity|]; cbn; simpl_map by path_ne; done);
    exfalso; destruct Hfail as [[? ?]|[? ?]]; congruence.
Qed.

Lemma set_torn_state now url r content w :
  initialized (mem w) ->
  let m := mem w in
  let h := hashURL url in
  write_fault (disk w) !! (content_path m h +:+ ".tmp") = None ->
  rename_fault (disk w) !! content_path m h = None ->
  metadata_write_fails w h ->
  exists e w',
    run (cache.set now url r content) w = (Err e, w') /\
    mem w' = m /\
    read_fault (disk w') = read_fault (disk w) /\
    files (disk w') !! content_path m h = Some content /\
    files (disk w') !! meta_path m h = files (disk w) !! meta_path m h.
Proof.
  intros Hinit. init_world w Hinit.
  unfold metadata_write_fails, cache.set, content_path, meta_path; cbn.
  intros Hcw Hcr Hfail.
  fs_unfold. rewrite Hcw. fs_unfold. rewrite Hcr.
  fs_run; try (do 2 eexists; split; [reflexivity|]; cbn; simpl_map by path_ne; done);
    exfalso; destruct Hfail as [[? ?]|[? ?]]; congruence.
Qed.

Lemma get_reads race url w s md doc content :
  obj_get (hashURL url) (index (mem w)) = Some s ->
  read_fault (disk w) !! meta_path (mem w) (hashURL url) = None ->
  read_fault (disk w) !! content_path (mem w) (hashURL url) = None ->
  files (disk w) !! meta_path (mem w) (hashURL url) = Some doc ->
  files (disk w) !! content_path (mem w) (hashURL url) = Some content ->
  JSON_parse doc = Some md ->
  run (cache.get race url) w = (Ok (Some (md, content)), w).
Proof.
  intros Hrec Hrm Hrc Hm Hc Hparse. destruct w as [m0 fs]. cbn in *.
  unfold cache.get, meta_path, content_path in *.
  cbn. rewrite Hrec. fs_unfold. rewrite Hrm, Hrc, Hm, Hc. cbn. by rewrite Hparse.
Qed.

(** X8: storing a URL again, when the content is written and the metadata
    step fails, throws and leaves the index alone; from then on [get]
    returns the new content with the metadata of the old entry. *)
Theorem set_torn_overwrite race now url r content w s doc md :
  initialized (mem w) ->
  let m := mem w in
  let h := hashURL url in
  obj_get h (index m) = Some s ->
  files (disk w) !! meta_path m h = Some doc ->
  JSON_parse doc = Some md ->
  read_fault (disk w) !! meta_path m h = None ->
  read_fault (disk w) !! content_path m h = None ->
  write_fault (disk w) !! (content_path m h +:+ ".tmp") = None ->
  rename_fault (disk w) !! content_path m h = None ->
  metadata_write_fails w h ->
  exists e w',
    run (cache.set now url r content) w = (Err e, w') /\
    mem w' = m /\
    run (cache.get race url) w' = (Ok (Some (md, content)), w').
Proof.
  intros Hinit m h Hrec Hdoc Hparse Hrm Hrc Hcw Hcr Hfail.
  destruct (set_torn_state now url r content w Hinit Hcw Hcr Hfail)
    as (e & w' & Hrun & Hmem & Hrf & Hc & Hm).
  exists e, w'. split; [exact Hrun|]. split; [exact Hmem|].
  apply (get_reads race url w' s md doc content); rewrite ?Hmem, ?Hrf; try done.
  by rewrite Hm.
Qed.

(** X9: when [set] returns, none of its three temporary files is left. *)
Theorem set_leaves_no_tmp now url r content w w' :
  initialized (mem w) ->
  run (cache.set now url r content) w = (Ok tt, w') ->
  let m := mem w in
  let h := hashURL url in
  files (disk w') !! (content_path m h +:+ ".tmp") = None /\
  files (disk w') !! (meta_path m h +:+ ".tmp") = None /\
  files (disk w') !! (indexPath m +:+ ".tmp") = None.
Proof.
  intros Hinit. init_world w Hinit.
  unfold cache.set, content_path, meta_path; cbn.
  fs_run; intros [= <-]; cbn; simpl_map by path_ne; done.
Qed.

End halfway.

(** ** Between requests *)

Section between.
Context `{JSON index_t, JSON metadata}.

Lemma serve_one_keeps q w :
  initialized (mem w) -> healthy (disk w) ->
  initialized (mem (serve_one q w)) /\ healthy (disk (serve_one q w)).
Proof.
  intros Hinit Hh. destruct q as [now url r content|race url]; unfold serve_one.
  - destruct (set_succeeds now url r content w Hinit Hh) as (w1 & -> & Hmem & Hh1 & _).
    cbn [snd]. rewrite Hmem. by split.
  - destruct (get_result race url w) as (_ & Hi & Hhe). split; auto.
Qed.

Lemma get_synced race url w :
  healthy (disk w) -> synced w -> synced (run (cache.get race url) w).2.
Proof.
  intros (Hrd & Hwr & Hrn & Hmk). destruct w as [m fs].
  destruct fs as [f d rf wf rnf mf]; cbn in *; subst rf wf rnf mf.
  unfold synced, cache.get. cbn. intros Hs.
  destruct (obj_get (hashURL url) (index m)) as [s|] eqn:Hrec; [|done].
  destruct race;
    repeat (fs_unfold; rewrite ?lookup_empty; try fs_case);
    try destruct (JSON_parse _); cbn; try done;
    repeat (fs_unfold; rewrite ?lookup_empty; try fs_case); cbn;
    by simpl_map.
Qed.

Lemma synced_step q w :
  initialized (mem w) -> healthy (disk w) -> synced w -> synced (serve_one q w).
Proof.
  intros Hinit Hh Hs. destruct q as [now url r content|race url]; unfold serve_one.
  - destruct (set_succeeds now url r content w Hinit Hh)
      as (w1 & -> & Hmem & _ & _ & _ & Hidx).
    cbn [snd]. unfold synced. rewrite Hmem. exact Hidx.
  - by apply get_synced.
Qed.

(** X10: on a healthy disk, once the index file holds the index in memory
    it does so after every further [set] and [get]. *)
Theorem synced_serve qs w :
  initialized (mem w) -> healthy (disk w) -> synced w -> synced (serve qs w).
Proof.
  revert w; induction qs as [|q qs IH]; intros w Hinit Hh Hs; [exact Hs|].
  change (serve (q :: qs) w) with (serve qs (serve_one q w)).
  destruct (serve_one_keeps q w Hinit Hh) as [Hi Hhe].
  apply IH; [exact Hi|exact Hhe|by apply synced_step].
Qed.

Lemma restart_loads w m0 :
  initialized (mem w) -> healthy (disk w) -> synced w ->
  JSON_parse (JSON_stringify (index (mem w))) = Some (index (mem w)) ->
  run (cache.initializeCache (cacheDir (mem w))) (World m0 (disk w))
  = (Ok tt, World (mem w) (with_dirs ({[entriesDir (mem w)]} ∪ dirs (disk w)) (disk w))).
Proof.
  intros Hinit Hh Hs Hparse. init_world w Hinit.
  destruct Hh as (Hrd & _ & _ & Hmk). unfold synced in Hs. cbn in *.
  destruct (init_loaded dir (World m0 fs) (JSON_stringify idx) idx) as [Hrun _].
  - cbn. by rewrite Hmk, lookup_empty.
  - cbn. unfold read_file. by rewrite Hrd, lookup_empty, Hs.
  - exact Hparse.
  - exact Hrun.
Qed.

(** X11: a restart on the directory of a world whose index file holds the
    index in memory, on a healthy disk, with an index document that parses
    back, restores the module variables as they were, whatever they hold
    when it starts, and changes no file. *)
Theorem restart_restores w m0 :
  initialized (mem w) -> healthy (disk w) -> synced w ->
  JSON_parse (JSON_stringify (index (mem w))) = Some (index (mem w)) ->
  exists w',
    run (cache.initializeCache (cacheDir (mem w))) (World m0 (disk w)) = (Ok tt, w') /\
    mem w' = mem w /\ files (disk w') = files (disk w).
Proof.
  intros Hinit Hh Hs Hparse. eexists. split; [by apply restart_loads|]. done.
Qed.

(** X12: what [set] stored is read back by [get] after a restart. *)
Theorem persist_across_restart race now url r content w m0 :
  initialized (mem w) -> healthy (disk w) ->
  let md := metadata_of now url r content in
  let i' := obj_set (hashURL url) (summary_of now url content) (index (mem w)) in
  JSON_parse (JSON_stringify md) = Some md ->
  JSON_parse (JSON_stringify i') = Some i' ->
  exists w1 w2,
    run (cache.set now url r content) w = (Ok tt, w1) /\
    run (cache.initializeCache (cacheDir (mem w))) (World m0 (disk w1)) = (Ok tt, w2) /\
    run (cache.get race url) w2 = (Ok (Some (md, content)), w2).
Proof.
  intros Hinit Hh md i' Hpm Hpi.
  destruct (set_succeeds now url r content w Hinit Hh)
    as (w1 & Hrun & Hmem & Hh1 & Hc & Hm & Hidx).
  assert (Hinit1 : initialized (mem w1)) by (rewrite Hmem; exact Hinit).
  assert (Hs1 : synced w1) by (unfold synced; rewrite Hmem; exact Hidx).
  assert (Hdir : cacheDir (mem w1) = cacheDir (mem w)) by (by rewrite Hmem).
  pose proof (restart_loads w1 m0 Hinit1 Hh1 Hs1) as Hboot.
  rewrite Hdir in Hboot.
  eexists w1, _. split; [exact Hrun|]. split.
  - apply Hboot. rewrite Hmem. exact Hpi.
  - eapply get_hit.
    + cbn. rewrite Hmem. cbn. apply obj_get_set_eq.
    + cbn. destruct Hh1 as (? & ? & ? & ?). by repeat split.
    + cbn. rewrite Hmem. exact Hc.
    + cbn. rewrite Hmem. eauto.
Qed.

Lemma set_coherent now url r content w x :
  coherent (index (mem w)) ->
  x ∈ snapshots (cache.set now url r content) w -> coherent (index (mem x)).
Proof.
  intros Hco. destruct w as [m fs]. unfold cache.set. cbn in Hco.
  pose proof (coherent_set now url content _ Hco) as Hco'.
  fs_run; intros Hx; in_list Hx; cbn; done.
Qed.

Lemma get_coherent race url w x :
  coherent (index (mem w)) ->
  x ∈ snapshots (cache.get race url) w -> coherent (index (mem x)).
Proof.
  intros Hco. destruct w as [m fs]. unfold cache.get. cbn in Hco.
  pose proof (coherent_delete (hashURL url) _ Hco) as Hco'.
  cbn. destruct (obj_get (hashURL url) (index m)) as [s|] eqn:Hrec.
  2: { cbn. intros Hx; in_list Hx; done. }
  destruct race; fs_run; try destruct (JSON_parse _); fs_run;
    intros Hx; in_list Hx; cbn; done.
Qed.

Lemma coherent_urls_NoDup i :
  coherent i -> NoDup (map l_url (map public (obj_values i))).
Proof.
  intros [Hwf Hkey]. unfold obj_values. rewrite !map_map.
  apply NoDup_fmap_2_strong.
  - intros [k1 s1] [k2 s2] Hin1 Hin2 Hurl. cbn in Hurl.
    apply (elem_of_obj_get _ _ _ Hwf) in Hin1, Hin2.
    assert (k1 = k2) as <- by (rewrite (Hkey _ _ Hin1), (Hkey _ _ Hin2); by rewrite Hurl).
    congruence.
  - by apply (NoDup_fmap_1 fst).
Qed.

(** X13: an index in which every record sits under the key of its URL
    stays so at every moment of a [set] and of a [get], failed or not, on
    any disk; a listing taken at such a moment names no URL twice. *)
Theorem coherent_kept now race url r content w x :
  coherent (index (mem w)) ->
  x ∈ snapshots (cache.set now url r content) w \/
  x ∈ snapshots (cache.get race url) w ->
  coherent (index (mem x)) /\
  exists items, run cache.list x = (Ok items, x) /\ NoDup (map l_url items).
Proof.
  intros Hco Hx.
  assert (Hco' : coherent (index (mem x))).
  { destruct Hx as [Hx|Hx]; [by eapply set_coherent|by eapply get_coherent]. }
  split; [exact Hco'|]. eexists. split; [reflexivity|]. by apply coherent_urls_NoDup.
Qed.

End between.


(** ** The order of the listing *)

Section order.
Context {V : Type}.
Implicit Types (o : jsobject V) (k : string) (v : V).

Lemma obj_set_absent k v o : obj_get k o = None -> obj_set k v o = o ++ [(k, v)].
Proof.
  induction o as [|[k0 v0] o IH]; simpl; [done|].
  destruct (decide (k0 = k)) as [->|Hne]; [done|]. intros Hn. by rewrite IH.
Qed.

Lemma obj_set_present_length k v o :
  is_Some (obj_get k o) -> length (obj_set k v o) = length o.
Proof.
  induction o as [|[k0 v0] o IH]; simpl; [by intros [? ?]|].
  destruct (decide (k0 = k)) as [->|Hne]; [done|]. intros Hs. simpl. by rewrite IH.
Qed.

Lemma obj_set_lookup_ne k v o i k' v' :
  k' <> k -> o !! i = Some (k', v') -> obj_set k v o !! i = Some (k', v').
Proof.
  intros Hne. revert i; induction o as [|[k0 v0] o IH]; intros i; simpl; [done|].
  destruct (decide (k0 = k)) as [->|Hk0]; destruct i as [|i]; simpl;
    try done; try (intros [= -> ->]; done); apply IH.
Qed.

Lemma obj_set_lookup_eq k v o i v' :
  wf_object o -> o !! i = Some (k, v') -> obj_set k v o !! i = Some (k, v).
Proof.
  unfold wf_object. revert i; induction o as [|[k0 v0] o IH]; intros i; simpl; [done|].
  intros Hwf. apply NoDup_cons in Hwf as [Hk0 Hwf].
  destruct (decide (k0 = k)) as [->|Hne]; destruct i as [|i]; simpl; try done.
  - intros Hi. exfalso. apply Hk0.
    change k with (fst (k, v')). apply list_elem_of_fmap_2.
    by apply list_elem_of_lookup_2 in Hi.
  - by intros [= -> ->].
  - by apply IH.
Qed.

End order.

Section listing_order.
Context `{JSON index_t, JSON metadata}.

Lemma set_ok_index now url r content w w' :
  run (cache.set now url r content) w = (Ok tt, w') ->
  index (mem w') = obj_set (hashURL url) (summary_of now url content) (index (mem w)).
Proof.
  destruct w as [m fs]. unfold cache.set.
  fs_run; intros [= <-]; done.
Qed.

(** X14: when [set] returns, a URL stored for the first time is the last
    record of the listing; a URL stored again has its new record in the
    place of the old one; and every other record is where it was. *)
Theorem set_listing_order now url r content w w' :
  run (cache.set now url r content) w = (Ok tt, w') ->
  let i0 := index (mem w) in
  let h := hashURL url in
  let items := map public (obj_values i0) in
  let items' := map public (obj_values (index (mem w'))) in
  let new := Listing url (String.length content) in
  (obj_get h i0 = None -> items' = items ++ [new]) /\
  (is_Some (obj_get h i0) -> length items' = length items) /\
  (forall i s, wf_object i0 -> i0 !! i = Some (h, s) -> items' !! i = Some new) /\
  (forall i k s, i0 !! i = Some (k, s) -> k <> h -> items' !! i = Some (public s)).
Proof.
  intros Hrun i0 h items items' new. subst items items'.
  rewrite (set_ok_index _ _ _ _ _ _ Hrun). fold i0 h. unfold obj_values.
  split; [|split; [|split]].
  - intros Hn. rewrite (obj_set_absent _ _ _ Hn), !map_app. done.
  - intros Hs. rewrite !length_map. by apply obj_set_present_length.
  - intros i s Hwf Hi. rewrite !list_lookup_fmap.
    by rewrite (obj_set_lookup_eq h _ i0 i s Hwf Hi).
  - intros i k s Hi Hk. rewrite !list_lookup_fmap.
    by rewrite (obj_set_lookup_ne h _ i0 i k s Hk Hi).
Qed.

End listing_order.

(** ** Keys as file names *)

(** X15: a key holds no path separator, no dot and no NUL, so the two
    artifact names made from it stay inside the entries directory; and it
    is none of the names every object inherits. *)
Theorem hashURL_file_name url :
  (forall c, In c (String.list_ascii_of_string (hashURL url)) ->
     c <> "/"%char /\ c <> "\"%char /\ c <> "."%char /\ c <> "000"%char) /\
  hashURL url ∉ ["__proto__"; "constructor"; "toString"; "valueOf"; "hasOwnProperty";
                 "isPrototypeOf"; "propertyIsEnumerable"; "toLocaleString";
                 "__defineGetter__"; "__defineSetter__";
                 "__lookupGetter__"; "__lookupSetter__"].
Proof.
  destruct (hashURL_is_key url) as [Hlen Hhex]. split.
  - intros c Hc. rewrite Forall_forall in Hhex. apply list_elem_of_In in Hc.
    specialize (Hhex c Hc). unfold hexchars in Hhex. cbn in Hhex.
    repeat split; intros ->; repeat (destruct Hhex as [Hhex|Hhex]; [discriminate Hhex|]);
      exact Hhex.
  - intros Hin.
    repeat (apply elem_of_cons in Hin as [Heq|Hin];
            [rewrite Heq in Hlen; vm_compute in Hlen; discriminate Hlen|]).
    by apply elem_of_nil in Hin.
Qed.


(** ** The fetcher *)

Section headers.
Import fetcher.







End headers.

Section fetching.
Import fetcher.
Context `{URL_API}.

(** X17: [fetchURL] returns a value only for a URL whose protocol is [http:]
    or [https:]; for any other URL, and for one that does not parse, it
    throws the same error whatever the network would answer. *)
Theorem fetchURL_only_http net url timeout :
  (forall f, fetchURL net url timeout = inr f ->
     URL_parse url = Parsed "http:" \/ URL_parse url = Parsed "https:") /\
  (URL_parse url <> Parsed "http:" -> URL_parse url <> Parsed "https:" ->
   exists message, forall net', fetchURL net' url timeout = inl message).
Proof.
  unfold fetchURL. destruct (URL_parse url) as [msg|p]; split.
  - done.
  - intros _ _. by eexists.
  - intros f. do 2 case_bool_decide; simpl; try done; intros _.
    + right. f_equal. by destruct (decide (p = "https:")).
    + left. f_equal. by destruct (decide (p = "http:")).
    + left. f_equal. by destruct (decide (p = "http:")).
  - intros Hp1 Hp2. rewrite !bool_decide_eq_true_2 by congruence. simpl. by eexists.
Qed.

(** X18: the network is asked once at most, with a timeout that is never
    zero: the one given, or 30000 when none or zero is given; the result
    depends on the network through that answer only, and a timeout error
    names that number. *)
Theorem fetchURL_timeout net url timeout :
  let t := or_number timeout 30000 in
  t <> 0%Z /\
  (forall net', net' url t = net url t ->
     fetchURL net' url timeout = fetchURL net url timeout) /\
  fetchURL net url timeout = fetchURL net url (Some t) /\
  (forall e,
     (URL_parse url = Parsed "http:" \/ URL_parse url = Parsed "https:") ->
     net url t = inl e -> e_name e = "AbortError" ->
     fetchURL net url timeout = inl ("Request timeout after " +:+ show t +:+ "ms")).
Proof.
  intros t. assert (Ht : t <> 0%Z).
  { subst t. unfold or_number. destruct timeout as [n|]; [|done]. by case_decide. }
  split; [exact Ht|]. split; [|split].
  - intros net' Hnet. unfold fetchURL. fold t. by rewrite Hnet.
  - unfold fetchURL. fold t.
    replace (or_number (Some t) 30000) with t; [done|].
    unfold or_number at 1. by rewrite decide_False.
  - intros e Hp Hnet Hname. unfold fetchURL. fold t.
    destruct Hp as [-> | ->]; simpl; rewrite Hnet; by rewrite bool_decide_eq_true_2.
Qed.

(** X19: for an answered request, [fetchURL] hands on the status and the
    body as they came, and a content type that is never empty: the
    [content-type] header when there is one and it is not empty, the
    default [application/octet-stream] otherwise. *)
Theorem fetchURL_answer net url timeout a :
  URL_parse url = Parsed "http:" \/ URL_parse url = Parsed "https:" ->
  net url (or_number timeout 30000) = inr a ->
  exists f,
    fetchURL net url timeout = inr f /\
    statusCode f = a_status a /\ body f = a_body a /\
    headers f = header_object (a_headers a) /\
    contentType f <> "" /\
    (obj_get "content-type" (a_headers a) = Some (contentType f) \/
     (contentType f = "application/octet-stream" /\
      (obj_get "content-type" (a_headers a) = None \/
       obj_get "content-type" (a_headers a) = Some ""))).
Proof.
  intros Hp Hnet. unfold fetchURL.
  destruct Hp as [-> | ->]; simpl; rewrite Hnet; eexists; (split; [reflexivity|]);
    simpl; (split; [done|]); (split; [done|]); (split; [done|]);
    unfold or_string; destruct (obj_get "content-type" (a_headers a)) as [ct|];
    try case_decide; subst; auto.
Qed.

End fetching.


(** ** The routes *)

Section routing.
Import routes.
Context `{JSON index_t, JSON metadata, URL_API}.

Lemma get_heals race url w s :
  obj_get (hashURL url) (index (mem w)) = Some s ->
  healthy (disk w) ->
  files (disk w) !! meta_path (mem w) (hashURL url) = None \/
  files (disk w) !! content_path (mem w) (hashURL url) = None ->
  exists w1,
    run (cache.get race url) w = (Ok None, w1) /\
    mem w1 = with_index (obj_delete (hashURL url) (index (mem w))) (mem w) /\
    healthy (disk w1).
Proof.
  intros Hrec (Hrd & Hwr & Hrn & Hmk) Habsent. destruct w as [m fs].
  destruct fs as [f d rf wf rnf mf]; cbn in *; subst rf wf rnf mf.
  unfold cache.get, meta_path, content_path in *. cbn. rewrite Hrec.
  destruct Habsent as [Ha|Ha], race;
    repeat (fs_unfold; rewrite ?lookup_empty, ?Ha; try fs_case);
    eexists; (split; [reflexivity|]); by cbn.
Qed.

Lemma fetch_answer net url a :
  is_http url -> net url fetchTimeout = inr a ->
  fetcher.fetchURL net url (Some fetchTimeout)
  = inr (fetcher.Fetched (fetcher.a_status a) (fetcher.header_object (fetcher.a_headers a))
           (fetcher.a_body a)
           (or_string (obj_get "content-type" (fetcher.a_headers a))
                      "application/octet-stream")).
Proof.
  intros [_ Hp] Hnet. unfold fetcher.fetchURL. unfold fetchTimeout in *.
  destruct Hp as [-> | ->]; simpl; by rewrite Hnet.
Qed.

Lemma success_test status :
  ((200 <=? status)%Z && (status <? 300)%Z) = bool_decide (success status).
Proof.
  unfold success. destruct (200 <=? status)%Z eqn:Hlo, (status <? 300)%Z eqn:Hhi; simpl;
    symmetry; (apply bool_decide_eq_true_2 || apply bool_decide_eq_false_2); lia.
Qed.

Lemma GetURL_cached net race now url w s md content :
  url <> "" -> (exists p, URL_parse url = Parsed p) ->
  obj_get (hashURL url) (index (mem w)) = Some s ->
  healthy (disk w) ->
  files (disk w) !! content_path (mem w) (hashURL url) = Some content ->
  (exists doc, files (disk w) !! meta_path (mem w) (hashURL url) = Some doc /\
               JSON_parse doc = Some md) ->
  GetURL net race now (Some url) w
  = (Reply 200 (Some (m_contentType md)) (Content content), w).
Proof.
  intros Hurl [p Hp] Hrec Hh Hc Hm. unfold GetURL.
  rewrite decide_False by done. rewrite Hp.
  by rewrite (get_hit race url w s md content Hrec Hh Hc Hm).
Qed.

(** X20: a URL that is cached is answered from the files, with the
    content type of its metadata, whatever the network would answer and
    whatever the protocol of the URL; nothing changes. *)
Theorem GetURL_hit net race now url w s md content :
  url <> "" -> (exists p, URL_parse url = Parsed p) ->
  obj_get (hashURL url) (index (mem w)) = Some s ->
  healthy (disk w) ->
  files (disk w) !! content_path (mem w) (hashURL url) = Some content ->
  (exists doc, files (disk w) !! meta_path (mem w) (hashURL url) = Some doc /\
               JSON_parse doc = Some md) ->
  forall net' race' now',
    GetURL net' race' now' (Some url) w
    = (Reply 200 (Some (m_contentType md)) (Content content), w) /\
    GetURL net' race' now' (Some url) w = GetURL net race now (Some url) w.
Proof.
  intros Hurl Hp Hrec Hh Hc Hm net' race' now'.
  by rewrite !(GetURL_cached _ _ _ url w s md content Hurl Hp Hrec Hh Hc Hm).
Qed.

(** X21: an answer of the origin outside 2xx is passed on with its status
    and is not stored: for a URL with no record the world is untouched. *)
Theorem GetURL_upstream_error net race now url w a :
  is_http url ->
  obj_get (hashURL url) (index (mem w)) = None ->
  net url fetchTimeout = inr a -> ~ success (fetcher.a_status a) ->
  GetURL net race now (Some url) w
  = (Reply (fetcher.a_status a) None (UpstreamError url (fetcher.a_status a)), w).
Proof.
  intros Hhttp Hmiss Hnet Hstatus. pose proof Hhttp as [Hurl Hp]. unfold GetURL.
  rewrite decide_False by done.
  assert (exists p, URL_parse url = Parsed p) as [p ->] by (destruct Hp; eauto).
  assert (Hget : run (cache.get race url) w = (Ok None, w)).
  { unfold cache.get. cbn. by rewrite Hmiss. }
  rewrite Hget, (fetch_answer net url a Hhttp Hnet). cbn [fetcher.statusCode].
  by rewrite success_test, bool_decide_eq_false_2.
Qed.

(** X22: when the origin does not answer, the request is answered 502
    with the message of [fetchURL], and a URL with no record leaves the
    world untouched; a fetch that ran into the timer says so with the
    configured 30000 milliseconds. *)
Theorem GetURL_fetch_failure net race now url w e :
  is_http url ->
  obj_get (hashURL url) (index (mem w)) = None ->
  net url fetchTimeout = inl e ->
  exists message,
    GetURL net race now (Some url) w
    = (Reply 502 None (FailedToFetch (FetchError message) url), w) /\
    (fetcher.e_name e = "AbortError" -> message = "Request timeout after 30000ms") /\
    (fetcher.e_name e <> "AbortError" ->
     forall c, fetcher.e_cause e = Some c ->
       message = "Network error: " +:+ or_string (fetcher.c_code c) (fetcher.c_message c)).
Proof.
  intros [Hurl Hp] Hmiss Hnet. unfold GetURL.
  rewrite decide_False by done.
  assert (Hget : run (cache.get race url) w = (Ok None, w)).
  { unfold cache.get. cbn. by rewrite Hmiss. }
  unfold fetcher.fetchURL. unfold fetchTimeout in *.
  destruct Hp as [-> | ->]; rewrite Hget; simpl; rewrite Hnet;
    case_bool_decide as Hname; try destruct (fetcher.e_cause e) as [c|] eqn:Hcause;
    eexists; (split; [reflexivity|]); (split; [try done|try done]);
    try (intros _ c' [= <-]; done); try (intros _; vm_compute; reflexivity).
Qed.

Lemma GetURL_miss net race now url w a :
  is_http url -> initialized (mem w) -> healthy (disk w) ->
  obj_get (hashURL url) (index (mem w)) = None ->
  net url fetchTimeout = inr a -> success (fetcher.a_status a) ->
  exists w2,
    GetURL net race now (Some url) w = (served a, w2) /\
    initialized (mem w2) /\ healthy (disk w2) /\
    mem w2 = with_index (obj_set (hashURL url)
                           (summary_of now url (fetcher.a_body a)) (index (mem w))) (mem w) /\
    files (disk w2) !! content_path (mem w2) (hashURL url) = Some (fetcher.a_body a) /\
    files (disk w2) !! meta_path (mem w2) (hashURL url)
      = Some (JSON_stringify (stored now url a)) /\
    synced w2.
Proof.
  intros Hhttp Hinit Hh Hmiss Hnet Hstatus. pose proof Hhttp as [Hurl Hp]. unfold GetURL.
  rewrite decide_False by done.
  assert (exists p, URL_parse url = Parsed p) as [p ->] by (destruct Hp; eauto).
  assert (Hget : run (cache.get race url) w = (Ok None, w)).
  { unfold cache.get. cbn. by rewrite Hmiss. }
  rewrite Hget, (fetch_answer net url a Hhttp Hnet).
  cbn [fetcher.statusCode fetcher.body fetcher.contentType].
  rewrite success_test, bool_decide_eq_true_2 by done.
  destruct (set_succeeds now url
              (descriptor (fetcher.Fetched (fetcher.a_status a)
                 (fetcher.header_object (fetcher.a_headers a)) (fetcher.a_body a)
                 (or_string (obj_get "content-type" (fetcher.a_headers a))
                    "application/octet-stream")))
              (fetcher.a_body a) w Hinit Hh)
    as (w2 & Hrun & Hmem & Hh2 & Hc & Hm & Hidx).
  rewrite Hrun. exists w2. split; [done|].
  split; [by rewrite Hmem|]. split; [done|]. split; [done|].
  unfold synced. rewrite Hmem. by repeat split.
Qed.

(** X23: on a healthy disk, after a first request that the origin answered
    with a 2xx status, every further request for the URL gets the same
    body and content type from the cache, whatever the network does. *)
Theorem GetURL_twice net race now url w a :
  is_http url -> initialized (mem w) -> healthy (disk w) ->
  obj_get (hashURL url) (index (mem w)) = None ->
  net url fetchTimeout = inr a -> success (fetcher.a_status a) ->
  JSON_parse (JSON_stringify (stored now url a)) = Some (stored now url a) ->
  exists w2,
    GetURL net race now (Some url) w = (served a, w2) /\
    forall net' race' now', GetURL net' race' now' (Some url) w2 = (served a, w2).
Proof.
  intros Hhttp Hinit Hh Hmiss Hnet Hstatus Hparse.
  destruct (GetURL_miss net race now url w a Hhttp Hinit Hh Hmiss Hnet Hstatus)
    as (w2 & Hfirst & Hinit2 & Hh2 & Hmem & Hc & Hm & _).
  exists w2. split; [exact Hfirst|]. intros net' race' now'.
  destruct Hhttp as [Hurl Hp].
  eapply (GetURL_cached net' race' now' url w2 _ (stored now url a)); try done.
  - destruct Hp; eauto.
  - rewrite Hmem. cbn. apply obj_get_set_eq.
  - eauto.
Qed.

(** X24: a record whose files are gone does not keep the URL from being
    served: the request drops the record, asks the origin and stores the
    answer again. *)
Theorem GetURL_refetches_stale net race now url w s a :
  is_http url -> initialized (mem w) -> healthy (disk w) ->
  obj_get (hashURL url) (index (mem w)) = Some s ->
  files (disk w) !! meta_path (mem w) (hashURL url) = None \/
  files (disk w) !! content_path (mem w) (hashURL url) = None ->
  net url fetchTimeout = inr a -> success (fetcher.a_status a) ->
  exists w2,
    GetURL net race now (Some url) w = (served a, w2) /\
    obj_get (hashURL url) (index (mem w2)) = Some (summary_of now url (fetcher.a_body a)) /\
    files (disk w2) !! content_path (mem w2) (hashURL url) = Some (fetcher.a_body a).
Proof.
  intros Hhttp Hinit Hh Hrec Habsent Hnet Hstatus.
  destruct (get_heals race url w s Hrec Hh Habsent) as (w1 & Hget & Hmem1 & Hh1).
  assert (Hinit1 : initialized (mem w1)) by (by rewrite Hmem1).
  assert (Hmiss1 : obj_get (hashURL url) (index (mem w1)) = None).
  { rewrite Hmem1. cbn. apply obj_get_delete_eq. }
  destruct (GetURL_miss net race now url w1 a Hhttp Hinit1 Hh1 Hmiss1 Hnet Hstatus)
    as (w2 & Hsecond & _ & _ & Hmem2 & Hc & _).
  exists w2. split.
  - destruct Hhttp as [Hurl Hp].
    assert (exists p, URL_parse url = Parsed p) as [p Hparsed] by (destruct Hp; eauto).
    assert (Hget1 : run (cache.get race url) w1 = (Ok None, w1)).
    { unfold cache.get. cbn. by rewrite Hmiss1. }
    unfold GetURL in Hsecond |- *.
    rewrite decide_False, Hparsed, Hget1 in Hsecond by done.
    rewrite decide_False, Hparsed, Hget by done. exact Hsecond.
  - split; [|exact Hc]. rewrite Hmem2. cbn. apply obj_get_set_eq.
Qed.

(** X25: an entry whose metadata file is not JSON makes every request for
    its URL fail with 502: the origin is not asked and nothing is
    repaired. *)
Theorem GetURL_corrupt_entry net race now url w s doc content :
  url <> "" -> (exists p, URL_parse url = Parsed p) ->
  obj_get (hashURL url) (index (mem w)) = Some s ->
  read_fault (disk w) !! meta_path (mem w) (hashURL url) = None ->
  read_fault (disk w) !! content_path (mem w) (hashURL url) = None ->
  files (disk w) !! meta_path (mem w) (hashURL url) = Some doc ->
  files (disk w) !! content_path (mem w) (hashURL url) = Some content ->
  JSON_parse (A:=metadata) doc = None ->
  GetURL net race now (Some url) w
  = (Reply 502 None (FailedToFetch (CacheError SyntaxError) url), w).
Proof.
  intros Hurl [p Hp] Hrec Hrm Hrc Hm Hc Hparse. unfold GetURL.
  rewrite decide_False by done. rewrite Hp.
  assert (Hget : run (cache.get race url) w = (Err SyntaxError, w)).
  { destruct w as [m0 fs]. cbn in *.
    unfold cache.get, meta_path, content_path in *.
    cbn. rewrite Hrec. fs_unfold. rewrite Hrm, Hrc, Hm, Hc. cbn. by rewrite Hparse. }
  by rewrite Hget.
Qed.

(** X26: a URL of another protocol than [http:] and [https:] is never
    fetched nor stored: the request ends where [cache.get] ends, with the
    cached content or with 502, whatever the network would answer. *)
Theorem GetURL_other_protocol net race now url w p :
  url <> "" -> URL_parse url = Parsed p -> p <> "http:" -> p <> "https:" ->
  let out := GetURL net race now (Some url) w in
  out.2 = (run (cache.get race url) w).2 /\
  (code out.1 = 200%Z \/ code out.1 = 502%Z) /\
  forall net' now', GetURL net' race now' (Some url) w = out.
Proof.
  intros Hurl Hp Hp1 Hp2 out. subst out. unfold GetURL.
  destruct (decide (url = "")) as [|_]; [done|]. rewrite Hp.
  unfold fetcher.fetchURL. rewrite Hp, !bool_decide_eq_true_2 by done. cbn [andb].
  destruct (run (cache.get race url) w) as [[[[md c]|]|e] w1]; cbn;
    (split; [done|]); (split; [auto|done]).
Qed.

(** X27: a reply has status 200 exactly when its body is the content; a
    reply with status 400 has looked at nothing and changed nothing. *)
Theorem GetURL_reply_codes net race now query w :
  let out := GetURL net race now query w in
  (code out.1 = 200%Z <-> exists bytes, payload_ out.1 = Content bytes) /\
  ((payload_ out.1 = MissingParameter \/ exists m u, payload_ out.1 = InvalidURL m u) ->
   code out.1 = 400%Z /\ out.2 = w).
Proof.
  intros out. subst out. unfold GetURL.
  destruct query as [url|]; [|split; [split; [done|by intros [? ?]]|done]].
  case_decide; [split; [split; [done|by intros [? ?]]|done]|].
  destruct (URL_parse url) as [msg|p]; [split; [split; [done|by intros [? ?]]|done]|].
  destruct (run (cache.get race url) w) as [[[[md c]|]|e] w1].
  - simpl. split; [split; eauto|]. intros [?|(? & ? & ?)]; done.
  - destruct (fetcher.fetchURL net url (Some fetchTimeout)) as [msg|f].
    + simpl. split; [split; [done|by intros [? ?]]|]. intros [?|(? & ? & ?)]; done.
    + rewrite success_test. case_bool_decide as Hs.
      * destruct (run (cache.set now url (descriptor f) (fetcher.body f)) w1)
          as [[u|e] w2]; simpl.
        -- split; [split; eauto|]. intros [?|(? & ? & ?)]; done.
        -- split; [split; [done|by intros [? ?]]|]. intros [?|(? & ? & ?)]; done.
      * simpl. split; [|intros [?|(? & ? & ?)]; done].
        split; [|by intros [? ?]]. intros Hc. exfalso. apply Hs.
        unfold success. rewrite Hc. lia.
  - simpl. split; [split; [done|by intros [? ?]]|]. intros [?|(? & ? & ?)]; done.
Qed.

(** X28: [/Contents] answers 200 with the listing and changes nothing;
    after a first request that the origin answered with 2xx, the listing
    is the one before with the URL and the length of the body at its
    end. *)
Theorem Contents_after_GetURL net race now url w a :
  is_http url -> initialized (mem w) -> healthy (disk w) ->
  obj_get (hashURL url) (index (mem w)) = None ->
  net url fetchTimeout = inr a -> success (fetcher.a_status a) ->
  let w2 := (GetURL net race now (Some url) w).2 in
  exists items,
    Contents w = (Reply 200 None (Listing_ items), w) /\
    Contents w2
    = (Reply 200 None
         (Listing_ (items ++ [Listing url (String.length (fetcher.a_body a))])), w2).
Proof.
  intros Hhttp Hinit Hh Hmiss Hnet Hstatus w2.
  destruct (GetURL_miss net race now url w a Hhttp Hinit Hh Hmiss Hnet Hstatus)
    as (w2' & Hfirst & _ & _ & Hmem & _).
  subst w2. rewrite Hfirst. cbn [snd]. eexists. split; [reflexivity|].
  unfold Contents. cbn. rewrite Hmem. cbn.
  rewrite (obj_set_absent _ _ _ Hmiss). unfold obj_values. by rewrite !map_app.
Qed.

(** X29: a page served once is served again after a restart of the
    server on the same directory, from the cache: start-up loads the index
    the request saved, and the origin is not asked. *)
Theorem served_across_restart net race now url w a m0 :
  is_http url -> initialized (mem w) -> healthy (disk w) ->
  obj_get (hashURL url) (index (mem w)) = None ->
  net url fetchTimeout = inr a -> success (fetcher.a_status a) ->
  JSON_parse (JSON_stringify (stored now url a)) = Some (stored now url a) ->
  let i' := obj_set (hashURL url) (summary_of now url (fetcher.a_body a)) (index (mem w)) in
  JSON_parse (JSON_stringify i') = Some i' ->
  exists w2 w3,
    GetURL net race now (Some url) w = (served a, w2) /\
    run (cache.initializeCache (cacheDir (mem w))) (World m0 (disk w2)) = (Ok tt, w3) /\
    forall net' race' now', GetURL net' race' now' (Some url) w3 = (served a, w3).
Proof.
  intros Hhttp Hinit Hh Hmiss Hnet Hstatus Hpm i' Hpi.
  destruct (GetURL_miss net race now url w a Hhttp Hinit Hh Hmiss Hnet Hstatus)
    as (w2 & Hfirst & Hinit2 & Hh2 & Hmem & Hc & Hm & Hs).
  assert (Hdir : cacheDir (mem w2) = cacheDir (mem w)) by (by rewrite Hmem).
  pose proof (restart_loads w2 m0 Hinit2 Hh2 Hs) as Hboot. rewrite Hdir in Hboot.
  eexists w2, _. split; [exact Hfirst|]. split.
  - apply Hboot. rewrite Hmem. exact Hpi.
  - intros net' race' now'. destruct Hhttp as [Hurl Hp].
    apply (GetURL_cached net' race' now' url _
             (summary_of now url (fetcher.a_body a)) (stored now url a) (fetcher.a_body a)).
    + exact Hurl.
    + destruct Hp; eauto.
    + cbn. rewrite Hmem. cbn. apply obj_get_set_eq.
    + destruct Hh2 as (? & ? & ? & ?). by repeat split.
    + cbn. exact Hc.
    + cbn. eauto.
Qed.

End routing.

(** ** The further theorems at sample worlds *)

Section more_samples.
Import Sample.
#[local] Existing Instances json_index json_metadata Origin.sample_URL.

Lemma healthy_sample w :
  bool_decide (read_fault (disk w) = ∅ /\ write_fault (disk w) = ∅ /\
               rename_fault (disk w) = ∅ /\ mkdir_fault (disk w) = ∅) = true ->
  healthy (disk w).
Proof. intros Hb. exact (bool_decide_eq_true_1 _ Hb). Qed.

(** Two bytes into the content's temporary file, the content of another
    URL is as absent as before. *)
Lemma set_footprint_witness :
  half ∈ snapshots (cache.set stamp url_a html "hello") fresh /\
  same_vars fresh half /\
  files (disk half) !! content_path (vars []) (hashURL url_b) = None.
Proof.
  assert (Hseen : half ∈ snapshots (cache.set stamp url_a html "hello") fresh).
  { apply (bool_decide_unpack _). vm_compute. reflexivity. }
  destruct (set_footprint stamp url_a html "hello" fresh half
              (content_path (vars []) (hashURL url_b)) Hseen) as (Hv & _ & Hf).
  split; [exact Hseen|]. split; [exact Hv|]. rewrite Hf.
  - vm_compute. reflexivity.
  - apply (bool_decide_unpack _). vm_compute. reflexivity.
Defined.

(** A [get] that fails on an unreadable content file leaves that file. *)
Lemma get_footprint_witness :
  let x := (run (cache.get true url_a) locked).2 in
  files (disk x) !! content_path (vars []) (hashURL url_a) = Some "hello".
Proof.
  intros x.
  destruct (get_footprint true url_a locked x (content_path (vars []) (hashURL url_a)))
    as (_ & _ & Hf).
  - apply (bool_decide_unpack _). vm_compute. reflexivity.
  - rewrite Hf.
    + vm_compute. reflexivity.
    + apply (bool_decide_unpack _). vm_compute. reflexivity.
Defined.


(** A hit on the second of three stored URLs read its two files. *)
Lemma get_hit_sound_witness :
  files (disk Origin.filled) !! content_path (vars []) (hashURL url_b) = Some "hello, world" /\
  events (cache.get true url_b) Origin.filled
  = [EvGetMem; EvRead (meta_path (vars []) (hashURL url_b));
     EvRead (content_path (vars []) (hashURL url_b))].
Proof.
  destruct (get_hit_sound true url_b Origin.filled
              (metadata_of stamp url_b plain "hello, world") "hello, world" Origin.filled)
    as (_ & _ & Hc & _ & Hev).
  - vm_compute. reflexivity.
  - split.
    + refine (eq_trans _ Hc). vm_compute. reflexivity.
    + refine (eq_trans Hev _). vm_compute. reflexivity.
Defined.

(** After the [get] that repaired a stale record, the listing is empty of
    the URL. *)
Lemma get_null_unlisted_witness :
  let w' := (run (cache.get true url_a) stale).2 in
  obj_get (hashURL url_a) (index (mem w')) = None.
Proof.
  intros w'.
  destruct (get_null_unlisted true url_a stale w') as [Hnone _].
  - apply (coherent_set stamp url_a "hello" [] coherent_empty).
  - vm_compute. reflexivity.
  - exact Hnone.
Defined.

(** The index file refuses to be replaced: [set] throws, the record is in
    memory and the content on disk. *)
Lemma set_persist_failure_witness :
  exists e w',
    run (cache.set stamp url_a html "hello") (Origin.refusing_index fresh) = (Err e, w') /\
    obj_get (hashURL url_a) (index (mem w')) = Some (Summary url_a 5 stamp) /\
    files (disk w') !! path_join dir "index.json" = None /\
    files (disk w') !! content_path (vars []) (hashURL url_a) = Some "hello".
Proof.
  destruct (set_persist_failure stamp url_a html "hello" (Origin.refusing_index fresh))
    as (e & w' & Hrun & Hrec & Hidx & Hc & _).
  - apply initialized_vars.
  - vm_compute. repeat split; reflexivity.
  - right. exists EIO. vm_compute. reflexivity.
  - exists e, w'. split; [exact Hrun|]. split; [exact Hrec|]. split; [|exact Hc].
    refine (eq_trans Hidx _). vm_compute. reflexivity.
Defined.

(** A stale record and an index file that refuses to be replaced: [get]
    throws and the record is gone from memory. *)
Lemma get_heal_persist_failure_witness :
  exists e w',
    run (cache.get true url_a) (Origin.refusing_index stale) = (Err e, w') /\
    index (mem w') = [].
Proof.
  destruct (get_heal_persist_failure true url_a (Origin.refusing_index stale)
              (Summary url_a 5 stamp))
    as (e & w' & Hrun & Hidx & _).
  - vm_compute. reflexivity.
  - vm_compute. reflexivity.
  - vm_compute. reflexivity.
  - right. exists EIO. vm_compute. reflexivity.
  - exists e, w'. split; [exact Hrun|]. refine (eq_trans Hidx _). vm_compute. reflexivity.
Defined.

(** A page stored as HTML, stored again as text while the metadata file
    refuses to be replaced: [get] returns the new bytes as HTML. *)
Lemma set_torn_overwrite_witness :
  exists e w',
    run (cache.set stamp url_a plain "bye") (Origin.refusing_metadata url_a Origin.once)
      = (Err e, w') /\
    run (cache.get true url_a) w'
      = (Ok (Some (metadata_of stamp url_a html "hello", "bye")), w').
Proof.
  destruct (set_torn_overwrite true stamp url_a plain "bye"
              (Origin.refusing_metadata url_a Origin.once) (Summary url_a 5 stamp)
              (JSON_stringify (metadata_of stamp url_a html "hello"))
              (metadata_of stamp url_a html "hello"))
    as (e & w' & Hrun & _ & Hget).
  - vm_compute. split; reflexivity.
  - vm_compute. reflexivity.
  - vm_compute. reflexivity.
  - vm_compute. reflexivity.
  - vm_compute. reflexivity.
  - vm_compute. reflexivity.
  - vm_compute. reflexivity.
  - vm_compute. reflexivity.
  - right. exists EIO. vm_compute. reflexivity.
  - exists e, w'. split; [exact Hrun|exact Hget].
Defined.

(** A temporary file left by an earlier crash is gone after a [set]. *)
Lemma set_leaves_no_tmp_witness :
  files (disk half) !! (content_path (vars []) (hashURL url_a) +:+ ".tmp") = Some "he" /\
  let w' := (run (cache.set stamp url_a html "hello") half).2 in
  files (disk w') !! (content_path (vars []) (hashURL url_a) +:+ ".tmp") = None.
Proof.
  split; [vm_compute; reflexivity|]. intros w'.
  destruct (set_leaves_no_tmp stamp url_a html "hello" half w') as (Hc & _).
  - apply initialized_vars.
  - vm_compute. reflexivity.
  - exact Hc.
Defined.

(** After start-up and three stored URLs the index file holds the index. *)
Lemma synced_serve_witness : synced (serve three Origin.started).
Proof.
  apply synced_serve.
  - vm_compute. split; reflexivity.
  - apply healthy_sample. vm_compute. reflexivity.
  - vm_compute. reflexivity.
Defined.

(** A restart on the directory of three stored URLs has their index. *)
Lemma restart_restores_witness :
  exists w',
    run (cache.initializeCache dir) (World (Memory "" "" "" []) (disk Origin.filled))
      = (Ok tt, w') /\
    mem w' = mem Origin.filled.
Proof.
  destruct (restart_restores Origin.filled (Memory "" "" "" [])) as (w' & Hrun & Hmem & _).
  - vm_compute. split; reflexivity.
  - apply healthy_sample. vm_compute. reflexivity.
  - vm_compute. reflexivity.
  - vm_compute. reflexivity.
  - exists w'. split; [exact Hrun|exact Hmem].
Defined.

(** A page stored before a restart is served after it. *)
Lemma persist_across_restart_witness :
  exists w1 w2,
    run (cache.set stamp url_a html "hello") fresh = (Ok tt, w1) /\
    run (cache.initializeCache dir) (World (Memory "" "" "" []) (disk w1)) = (Ok tt, w2) /\
    run (cache.get true url_a) w2
      = (Ok (Some (metadata_of stamp url_a html "hello", "hello")), w2).
Proof.
  apply (persist_across_restart true stamp url_a html "hello" fresh (Memory "" "" "" [])).
  - apply initialized_vars.
  - apply healthy_disk_of.
  - vm_compute. reflexivity.
  - vm_compute. reflexivity.
Defined.

(** Two bytes into a first [set], the listing is empty. *)
Lemma coherent_kept_witness :
  coherent (index (mem half)) /\
  exists items, run cache.list half = (Ok items, half) /\ NoDup (map l_url items).
Proof.
  apply (coherent_kept stamp true url_a html "hello" fresh half).
  - apply coherent_empty.
  - left. apply (bool_decide_unpack _). vm_compute. reflexivity.
Defined.

(** Storing the first of three URLs again keeps it first; a fourth URL
    goes to the end. *)
Lemma set_listing_order_witness :
  let again := (run (cache.set stamp url_a plain "changed") Origin.filled).2 in
  let more := (run (cache.set stamp "https://d.example" plain "four") Origin.filled).2 in
  map public (obj_values (index (mem again))) !! 0%nat = Some (Listing url_a 7) /\
  map public (obj_values (index (mem more)))
  = [Listing url_a 5; Listing url_b 12; Listing url_c 0; Listing "https://d.example" 4].
Proof.
  intros again more.
  destruct (set_listing_order stamp url_a plain "changed" Origin.filled again)
    as (_ & _ & Hsame & _); [vm_compute; reflexivity|].
  destruct (set_listing_order stamp "https://d.example" plain "four" Origin.filled more)
    as (Hnew & _); [vm_compute; reflexivity|].
  split.
  - apply (Hsame 0%nat (Summary url_a 5 stamp)).
    + apply (bool_decide_unpack _). vm_compute. reflexivity.
    + vm_compute. reflexivity.
  - refine (eq_trans (Hnew _) _); vm_compute; reflexivity.
Defined.

(** The page of the sample origin is fetched as HTML. *)
Lemma fetchURL_answer_witness :
  exists f,
    fetcher.fetchURL Origin.up url_a None = inr f /\
    fetcher.statusCode f = 200%Z /\ fetcher.body f = "hello" /\
    fetcher.contentType f = "text/html".
Proof.
  destruct (fetchURL_answer Origin.up url_a None Origin.page)
    as (f & Hf & Hs & Hb & _ & _ & [Hct|[_ [Hct|Hct]]]);
    try (vm_compute in Hct; discriminate Hct).
  - right. vm_compute. reflexivity.
  - vm_compute. reflexivity.
  - exists f. split; [exact Hf|]. split; [exact Hs|]. split; [exact Hb|].
    vm_compute in Hct. by injection Hct.
Defined.

(** A cached page is served while the origin is down. *)
Lemma GetURL_hit_witness :
  routes.GetURL Origin.down true stamp (Some url_a) Origin.once
  = (routes.Reply 200 (Some "text/html") (routes.Content "hello"), Origin.once).
Proof.
  apply (GetURL_hit Origin.up true stamp url_a Origin.once (Summary url_a 5 stamp)
           (metadata_of stamp url_a html "hello") "hello").
  - intros E. vm_compute in E. discriminate E.
  - exists "https:". vm_compute. reflexivity.
  - vm_compute. reflexivity.
  - apply healthy_sample. vm_compute. reflexivity.
  - vm_compute. reflexivity.
  - exists (JSON_stringify (metadata_of stamp url_a html "hello")).
    vm_compute. split; reflexivity.
Defined.

(** A page that is not there is answered 404 and not stored. *)
Lemma GetURL_upstream_error_witness :
  routes.GetURL Origin.gone true stamp (Some url_a) fresh
  = (routes.Reply 404 None (routes.UpstreamError url_a 404), fresh).
Proof.
  apply (GetURL_upstream_error Origin.gone true stamp url_a fresh Origin.missing).
  - split; [intros E; vm_compute in E; discriminate E|]. right. vm_compute. reflexivity.
  - vm_compute. reflexivity.
  - vm_compute. reflexivity.
  - unfold success. cbn. lia.
Defined.

(** An origin slower than the timer is answered 502. *)
Lemma GetURL_fetch_failure_witness :
  routes.GetURL Origin.slow true stamp (Some url_a) fresh
  = (routes.Reply 502 None
       (routes.FailedToFetch (routes.FetchError "Request timeout after 30000ms") url_a),
     fresh).
Proof.
  destruct (GetURL_fetch_failure Origin.slow true stamp url_a fresh Origin.aborted)
    as (message & Hrun & Htimeout & _).
  - split; [intros E; vm_compute in E; discriminate E|]. right. vm_compute. reflexivity.
  - vm_compute. reflexivity.
  - vm_compute. reflexivity.
  - rewrite Hrun, Htimeout; [reflexivity|]. vm_compute. reflexivity.
Defined.

(** The page fetched once is served again when the origin is down. *)
Lemma GetURL_twice_witness :
  exists w2,
    routes.GetURL Origin.up true stamp (Some url_a) fresh = (served Origin.page, w2) /\
    routes.GetURL Origin.down true stamp (Some url_a) w2 = (served Origin.page, w2).
Proof.
  destruct (GetURL_twice Origin.up true stamp url_a fresh Origin.page)
    as (w2 & Hfirst & Hnext).
  - split; [intros E; vm_compute in E; discriminate E|]. right. vm_compute. reflexivity.
  - apply initialized_vars.
  - apply healthy_disk_of.
  - vm_compute. reflexivity.
  - vm_compute. reflexivity.
  - unfold success. cbn. lia.
  - vm_compute. reflexivity.
  - exists w2. split; [exact Hfirst|apply Hnext].
Defined.

(** A stale record does not keep the page from being fetched and stored. *)
Lemma GetURL_refetches_stale_witness :
  exists w2,
    routes.GetURL Origin.up true stamp (Some url_a) stale = (served Origin.page, w2) /\
    files (disk w2) !! content_path (mem w2) (hashURL url_a) = Some "hello".
Proof.
  destruct (GetURL_refetches_stale Origin.up true stamp url_a stale
              (Summary url_a 5 stamp) Origin.page)
    as (w2 & Hrun & _ & Hc).
  - split; [intros E; vm_compute in E; discriminate E|]. right. vm_compute. reflexivity.
  - apply initialized_vars.
  - apply healthy_disk_of.
  - vm_compute. reflexivity.
  - left. vm_compute. reflexivity.
  - vm_compute. reflexivity.
  - unfold success. cbn. lia.
  - exists w2. split; [exact Hrun|exact Hc].
Defined.

(** A cut metadata file: 502, though the origin is up. *)
Lemma GetURL_corrupt_entry_witness :
  routes.GetURL Origin.up true stamp (Some url_a) torn
  = (routes.Reply 502 None
       (routes.FailedToFetch (routes.CacheError SyntaxError) url_a), torn).
Proof.
  apply (GetURL_corrupt_entry Origin.up true stamp url_a torn (Summary url_a 5 stamp)
           "{ url: https://a.ex" "hello").
  - intros E. vm_compute in E. discriminate E.
  - exists "https:". vm_compute. reflexivity.
  - vm_compute. reflexivity.
  - vm_compute. reflexivity.
  - vm_compute. reflexivity.
  - vm_compute. reflexivity.
  - vm_compute. reflexivity.
  - vm_compute. reflexivity.
Defined.

(** An [ftp:] URL is answered 502 and nothing is stored. *)
Lemma GetURL_other_protocol_witness :
  let out := routes.GetURL Origin.up true stamp (Some "ftp://a.example/file") fresh in
  out.2 = fresh /\ routes.code out.1 = 502%Z.
Proof.
  intros out.
  destruct (GetURL_other_protocol Origin.up true stamp "ftp://a.example/file" fresh "ftp:")
    as (Hw & [Hc|Hc] & _).
  - intros E. vm_compute in E. discriminate E.
  - vm_compute. reflexivity.
  - intros E. vm_compute in E. discriminate E.
  - intros E. vm_compute in E. discriminate E.
  - vm_compute in Hc. discriminate Hc.
  - split; [|exact Hc]. refine (eq_trans Hw _). vm_compute. reflexivity.
Defined.

(** The listing before and after the first request for a page. *)
Lemma Contents_after_GetURL_witness :
  let w2 := (routes.GetURL Origin.up true stamp (Some url_a) fresh).2 in
  routes.Contents fresh = (routes.Reply 200 None (routes.Listing_ []), fresh) /\
  routes.Contents w2 = (routes.Reply 200 None (routes.Listing_ [Listing url_a 5]), w2).
Proof.
  intros w2.
  destruct (Contents_after_GetURL Origin.up true stamp url_a fresh Origin.page)
    as (items & Hbefore & Hafter).
  - split; [intros E; vm_compute in E; discriminate E|]. right. vm_compute. reflexivity.
  - apply initialized_vars.
  - apply healthy_disk_of.
  - vm_compute. reflexivity.
  - vm_compute. reflexivity.
  - unfold success. cbn. lia.
  - assert (Hitems : items = []).
    { assert (E : routes.Contents fresh = (routes.Reply 200 None (routes.Listing_ []), fresh))
        by (vm_compute; reflexivity).
      rewrite Hbefore in E. by injection E. }
    subst items. split; [exact Hbefore|exact Hafter].
Defined.

(** The page fetched before a restart is served after it, the origin
    being down. *)
Lemma served_across_restart_witness :
  exists w2 w3,
    routes.GetURL Origin.up true stamp (Some url_a) fresh = (served Origin.page, w2) /\
    run (cache.initializeCache dir) (World (Memory "" "" "" []) (disk w2)) = (Ok tt, w3) /\
    routes.GetURL Origin.down true stamp (Some url_a) w3 = (served Origin.page, w3).
Proof.
  destruct (served_across_restart Origin.up true stamp url_a fresh Origin.page
              (Memory "" "" "" []))
    as (w2 & w3 & Hfirst & Hboot & Hnext).
  - split; [intros E; vm_compute in E; discriminate E|]. right. vm_compute. reflexivity.
  - apply initialized_vars.
  - apply healthy_disk_of.
  - vm_compute. reflexivity.
  - vm_compute. reflexivity.
  - unfold success. cbn. lia.
  - vm_compute. reflexivity.
  - vm_compute. reflexivity.
  - exists w2, w3. split; [exact Hfirst|]. split; [exact Hboot|apply Hnext].
Defined.

End more_samples.
